(** * An MCP client that augments a query, asks a model and runs its tool calls

    A shallow embedding of [client.py] (class [MCPClient]) and [server.py]
    (the FastMCP resource, tool and prompt handlers), followed by the
    properties of the conversation loop of [MCPClient.process_query].

    Conventions of the embedding.
    - A Python [str] is the list of its Unicode code points.
    - The MCP session, the model backend, [json.loads], [urllib.parse.unquote]
      and the file system are collaborators outside the repository: the
      session and the backend are records of operations on an abstract
      [World]; the three others are section variables.
    - [async]/[await] is sequential here: every awaited call is finished
      before the next statement runs.
    - [print] calls are left out; they return [None] and raise nothing.
    - [Exception] stands for the instances of Python's class [Exception],
      which is what the [except Exception] clauses of the source catch. *)

From Stdlib Require Import List NArith Bool Arith Lia Ascii.
From Stdlib Require String.
Import ListNotations.
Import String.StringSyntax.
Bind Scope string_scope with String.string.

Set Implicit Arguments.
Set Warnings "-register-all".

(** ** Python strings *)

Definition str : Type := list N.

Module Utf8.
(** String literals of this file are written in UTF-8, as the source
    files are; [decode] turns the bytes of a literal into code points. *)

Definition bytes (s : String.string) : list N :=
  map N_of_ascii (String.list_ascii_of_string s).

Definition cont (b : N) : N := N.land b 63.

Fixpoint decode (bs : list N) : str :=
  match bs with
  | [] => []
  | b :: t =>
      if (b <? 128)%N then b :: decode t
      else if (b <? 224)%N then
        match t with
        | b1 :: t1 => (N.land b 31 * 64 + cont b1)%N :: decode t1
        | _ => []
        end
      else if (b <? 240)%N then
        match t with
        | b1 :: b2 :: t2 =>
            (N.land b 15 * 4096 + cont b1 * 64 + cont b2)%N :: decode t2
        | _ => []
        end
      else
        match t with
        | b1 :: b2 :: b3 :: t3 =>
            (N.land b 7 * 262144 + cont b1 * 4096 + cont b2 * 64 + cont b3)%N
              :: decode t3
        | _ => []
        end
  end.
End Utf8.

Definition u (s : String.string) : str := Utf8.decode (Utf8.bytes s).

(** The newline of the source's ["\n"] escapes. *)
Definition NL : str := [10%N].

Fixpoint eqb_str (a b : str) : bool :=
  match a, b with
  | [], [] => true
  | x :: a', y :: b' => (x =? y)%N && eqb_str a' b'
  | _, _ => false
  end.

(** [sub in s] on Python strings: [sub] occurs in [s] as a contiguous run. *)
Fixpoint startswith (s sub : str) {struct sub} : bool :=
  match sub with
  | [] => true
  | c :: sub' =>
      match s with
      | [] => false
      | d :: s' => (c =? d)%N && startswith s' sub'
      end
  end.

Fixpoint contains (s sub : str) : bool :=
  startswith s sub ||
  match s with
  | [] => false
  | _ :: s' => contains s' sub
  end.

(** [any(indicator in query for indicator in indicators)] *)
Definition any_in (query : str) (indicators : list str) : bool :=
  existsb (fun indicator => contains query indicator) indicators.

(** The same, in the words of the specification: a keyword occurs in the
    query when the query is some text, the keyword, and some more text. *)
Definition Occurs (keyword query : str) : Prop :=
  exists before after, query = before ++ keyword ++ after.

(** The rule of the client, in the words of the specification: the query
    holds the locality keyword and one of the topic keywords. *)
Definition matches_rule (query : str) : Prop :=
  Occurs (u "北京") query /\
  (Occurs (u "景点") query \/ Occurs (u "旅游") query).

(** ** Values exchanged with the collaborators *)

(** What [json.loads] returns, and what an input schema is made of. A
    number is kept as its literal text. *)
Inductive JSON : Type :=
| JNull
| JBool (b : bool)
| JNumber (literal : str)
| JString (s : str)
| JArray (items : list JSON)
| JObject (members : list (str * JSON)).

(** A Python [dict] with string keys, in insertion order. *)
Definition Dict : Type := list (str * JSON).

Record Exception : Type := mkException { str_of : str }.

Definition IndexError : Exception :=
  mkException (u "list index out of range").

Definition AttributeError (cls attr : str) : Exception :=
  mkException (u "'" ++ cls ++ u "' object has no attribute '" ++ attr ++ u "'").

Module Tool.
(** [mcp.types.Tool] *)
Record t : Type := mk {
  name : str;
  description : option str;
  inputSchema : option Dict }.
End Tool.

Module ResourceContents.
Inductive t : Type :=
| TextResourceContents (text : str)
| BlobResourceContents (blob : str).
End ResourceContents.

Module Content.
(** The content blocks of prompt messages and of tool results. *)
Inductive t : Type :=
| TextContent (text : str)
| ImageContent (data mimeType : str)
| EmbeddedResource (resource : ResourceContents.t).

Definition class_name (c : t) : str :=
  match c with
  | TextContent _ => u "TextContent"
  | ImageContent _ _ => u "ImageContent"
  | EmbeddedResource _ => u "EmbeddedResource"
  end.
End Content.

Module PromptMessage.
Record t : Type := mk { role : str; content : Content.t }.
End PromptMessage.

Module ToolReturn.
(** What [call_tool] hands back: a [CallToolResult], which has a
    [content] attribute, or (the source tests [hasattr]) some other
    object, of which only [str(result)] is used. *)
Inductive t : Type :=
| CallToolResult (content : list Content.t) (isError : bool)
| Other (repr : str).
End ToolReturn.

Module ToolCall.
(** A tool call of an assistant message: [tool_call.id],
    [tool_call.function.name], [tool_call.function.arguments]. *)
Record Function : Type := mkFunction { name : str; arguments : str }.
Record t : Type := mk { id : str; function : Function }.
End ToolCall.

Module AssistantMessage.
(** [response.choices[0].message] *)
Record t : Type := mk {
  content : option str;
  tool_calls : option (list ToolCall.t) }.
End AssistantMessage.

(** The entries of [messages]. [AssistantDump m] is
    [assistant_output.model_dump()]: the message as the backend gave it. *)
Inductive Message : Type :=
| UserMessage (content : str)
| AssistantDump (m : AssistantMessage.t)
| ToolMessage (content : str) (tool_call_id : str).

Definition role (m : Message) : str :=
  match m with
  | UserMessage _ => u "user"
  | AssistantDump _ => u "assistant"
  | ToolMessage _ _ => u "tool"
  end.

Module FunctionSchema.
(** One entry of the [tools] argument of the backend. *)
Record Fn : Type := mkFn {
  name : str;
  description : option str;
  parameters : Dict }.
Record t : Type := mk { type : str; function : Fn }.
End FunctionSchema.

(** [response.choices], each choice reduced to its [message]. *)
Record ChatCompletion : Type := mkChatCompletion {
  choices : list AssistantMessage.t }.

(** ** Effects: state, exceptions, and loops that may not end *)

(** A call that leaves the process, as the request it sends. *)
Inductive Event : Type :=
| ReadResource (uri : str)
| GetPrompt (name : str) (arguments : list (str * str))
| ListTools
| CallTool (name : str) (arguments : JSON)
| ChatCreate (model : str) (messages : list Message)
             (tools : list FunctionSchema.t).

(** How a computation ends: with a value, with a raised exception, or not
    within the iterations it was allowed ([OutOfFuel]). *)
Inductive Outcome (A : Type) : Type :=
| Ret (a : A)
| Raise (e : Exception)
| OutOfFuel.

Arguments Raise {A} e.
Arguments OutOfFuel {A}.

Definition M (S A : Type) : Type := S -> Outcome A * S.

Definition ret {S A} (a : A) : M S A := fun st => (Ret a, st).

Definition raise {S A} (e : Exception) : M S A := fun st => (Raise e, st).

Definition out_of_fuel {S A} : M S A := fun st => (OutOfFuel, st).

Definition bind {S A B} (m : M S A) (k : A -> M S B) : M S B :=
  fun st =>
    match m st with
    | (Ret a, st') => k a st'
    | (Raise e, st') => (Raise e, st')
    | (OutOfFuel, st') => (OutOfFuel, st')
    end.

(** [try: m  except Exception as e: handler e] *)
Definition try_except {S A} (m : M S A) (handler : Exception -> M S A)
  : M S A :=
  fun st =>
    match m st with
    | (Raise e, st') => handler e st'
    | other => other
    end.

Notation "x <- m ;; k" := (bind m (fun x => k))
  (at level 61, m at next level, right associativity).
Notation "m ;; k" := (bind m (fun _ => k))
  (at level 61, right associativity).

(** [for x in l: body x] *)
Fixpoint for_each {S A} (body : A -> M S unit) (l : list A) : M S unit :=
  match l with
  | [] => ret tt
  | x :: l' => body x ;; for_each body l'
  end.

(** [l[0]] *)
Definition index0 {S A} (l : list A) : M S A :=
  match l with
  | x :: _ => ret x
  | [] => raise IndexError
  end.

(** [resource.contents[0].text], [content[0].text]: only the text classes
    have the attribute. *)
Definition resource_text {S} (c : ResourceContents.t) : M S str :=
  match c with
  | ResourceContents.TextResourceContents text => ret text
  | ResourceContents.BlobResourceContents _ =>
      raise (AttributeError (u "BlobResourceContents") (u "text"))
  end.

Definition content_text {S} (c : Content.t) : M S str :=
  match c with
  | Content.TextContent text => ret text
  | other => raise (AttributeError (Content.class_name other) (u "text"))
  end.

Arguments u : simpl never.

(** ** client.py *)

Section Client.

(** Everything outside the process: the provider behind the session, the
    model backend. An operation on it answers or raises, and may change it. *)
Variable World : Type.

Definition Remote (A : Type) : Type := World -> (Exception + A) * World.

(** [mcp.ClientSession], by the operations the client awaits. *)
Record ClientSession : Type := mkClientSession {
  list_tools : Remote (list Tool.t);
  read_resource : str -> Remote (list ResourceContents.t);
  get_prompt : str -> list (str * str) -> Remote (list PromptMessage.t);
  call_tool : str -> JSON -> Remote ToolReturn.t }.

(** [openai.OpenAI], by [chat.completions.create(model, messages, tools)]. *)
Record OpenAI : Type := mkOpenAI {
  create : str -> list Message -> list FunctionSchema.t
           -> Remote ChatCompletion }.

(** [self]: the attributes [__init__] sets and [process_query] reads. *)
Record MCPClient : Type := mkMCPClient {
  mcp_session : option ClientSession;
  model : str;
  ai_client : OpenAI }.

(** [json.loads] on the arguments text of a tool call. *)
Variable json_loads : str -> Exception + JSON.

(** The state a run threads: the world, the requests sent so far, and the
    list [messages] of [process_query], which [append] changes in place. *)
Record State : Type := mkState {
  world : World;
  log : list Event;
  messages : list Message }.

Definition Run (A : Type) : Type := M State A.

(** An awaited call: the request is logged, the world answers. *)
Definition remote {A} (ev : Event) (op : Remote A) : Run A :=
  fun st =>
    let (reply, w) := op (world st) in
    (match reply with inl e => Raise e | inr a => Ret a end,
     mkState w (log st ++ [ev]) (messages st)).

(** [messages = ms] *)
Definition assign_messages (ms : list Message) : Run unit :=
  fun st => (Ret tt, mkState (world st) (log st) ms).

(** [messages.append(m)] *)
Definition append (m : Message) : Run unit :=
  fun st => (Ret tt, mkState (world st) (log st) (messages st ++ [m])).

Definition read_messages : Run (list Message) :=
  fun st => (Ret (messages st), st).

Definition of_reply {A} (r : Exception + A) : Run A :=
  match r with inl e => raise e | inr a => ret a end.

(** [self.mcp_session.attr]: on [None] the attribute does not exist. *)
Definition session_attr (self : MCPClient) (attr : str) : Run ClientSession :=
  match mcp_session self with
  | Some session => ret session
  | None => raise (AttributeError (u "NoneType") attr)
  end.

Definition select_prompt_and_enhanced_query (self : MCPClient) (query : str)
  : Run str :=
  let isBJ := any_in query [u "北京"] in
  let isTourist := any_in query [u "景点"; u "旅游"] in
  if negb (isBJ && isTourist) then ret query
  else
    let resources_uri := u "city-tourist-doc://北京/city-tourist.md" in
    session <- session_attr self (u "read_resource") ;;
    resource <- remote (ReadResource resources_uri)
                       (read_resource session resources_uri) ;;
    contents0 <- index0 resource ;;
    city_info <- resource_text contents0 ;;
    let template_name := u "top_beijing_tourist_spots" in
    let arguments := [(u "city_info", city_info)] in
    session <- session_attr self (u "get_prompt") ;;
    prompt_response <- remote (GetPrompt template_name arguments)
                              (get_prompt session template_name arguments) ;;
    messages0 <- index0 prompt_response ;;
    prompt_text <- content_text (PromptMessage.content messages0) ;;
    let enhanced_query :=
      prompt_text ++ NL ++ NL ++ u "用户问题:" ++ NL ++ NL ++ query in
    ret enhanced_query.

(** [d or {}]: [d] when it is truthy (a dict with an entry), else the
    empty dict. *)
Definition or_empty (d : option Dict) : Dict :=
  match d with
  | Some (entry :: entries) => entry :: entries
  | Some [] => []
  | None => []
  end.

Definition to_function (tool : Tool.t) : FunctionSchema.t :=
  FunctionSchema.mk (u "function")
    (FunctionSchema.mkFn (Tool.name tool) (Tool.description tool)
                         (or_empty (Tool.inputSchema tool))).

Definition tools_to_openai_functions (self : MCPClient)
  : Run (list FunctionSchema.t) :=
  session <- session_attr self (u "list_tools") ;;
  tools_response <- remote ListTools (list_tools session) ;;
  let functions := map to_function tools_response in
  ret functions.

(** Lines 119-125 and again 150-156: one request to the backend with the
    current [messages], whose answer is appended as it came. *)
Definition request_model (self : MCPClient)
    (openai_tools : list FunctionSchema.t) : Run AssistantMessage.t :=
  ms <- read_messages ;;
  response <- remote (ChatCreate (model self) ms openai_tools)
                     (create (ai_client self) (model self) ms openai_tools) ;;
  assistant_output <- index0 (choices response) ;;
  append (AssistantDump assistant_output) ;;
  ret assistant_output.

(** [result.content[0].text if hasattr(result, 'content') else str(result)] *)
Definition result_text (result : ToolReturn.t) : Run str :=
  match result with
  | ToolReturn.CallToolResult content _ =>
      content0 <- index0 content ;; content_text content0
  | ToolReturn.Other repr => ret repr
  end.

(** The body of [for tool_call in assistant_output.tool_calls]. *)
Definition run_tool_call (self : MCPClient) (tool_call : ToolCall.t)
  : Run unit :=
  let tool_name := ToolCall.name (ToolCall.function tool_call) in
  tool_args <- of_reply
    (json_loads (ToolCall.arguments (ToolCall.function tool_call))) ;;
  session <- session_attr self (u "call_tool") ;;
  result <- remote (CallTool tool_name tool_args)
                   (call_tool session tool_name tool_args) ;;
  content <- result_text result ;;
  append (ToolMessage content (ToolCall.id tool_call)).

(** One pass of the [while] body: every tool call, then the next request. *)
Definition turn (self : MCPClient) (openai_tools : list FunctionSchema.t)
    (tool_calls : list ToolCall.t) : Run AssistantMessage.t :=
  for_each (run_tool_call self) tool_calls ;;
  request_model self openai_tools.

(** [while assistant_output.tool_calls: ...]; [None] and the empty list end
    it. [fuel] bounds the passes; the source has no bound. *)
Fixpoint while_tool_calls (fuel : nat) (self : MCPClient)
    (openai_tools : list FunctionSchema.t)
    (assistant_output : AssistantMessage.t) : Run AssistantMessage.t :=
  match AssistantMessage.tool_calls assistant_output with
  | Some (tool_call :: tool_calls) =>
      match fuel with
      | O => out_of_fuel
      | S fuel' =>
          assistant_output' <-
            turn self openai_tools (tool_call :: tool_calls) ;;
          while_tool_calls fuel' self openai_tools assistant_output'
      end
  | Some [] => ret assistant_output
  | None => ret assistant_output
  end.

(** Lines 112-125, up to the first answer of the model. *)
Definition first_request (self : MCPClient) (query : str)
  : Run (list FunctionSchema.t * AssistantMessage.t) :=
  enhanced_query <- select_prompt_and_enhanced_query self query ;;
  openai_tools <- tools_to_openai_functions self ;;
  assign_messages [UserMessage enhanced_query] ;;
  assistant_output <- request_model self openai_tools ;;
  ret (openai_tools, assistant_output).

(** The [try] block of [process_query]. The value returned is
    [assistant_output.content], a string or [None]. *)
Definition process_query_try (fuel : nat) (self : MCPClient) (query : str)
  : Run (option str) :=
  first <- first_request self query ;;
  assistant_output <-
    while_tool_calls fuel self (fst first) (snd first) ;;
  ret (AssistantMessage.content assistant_output).

Definition NOT_CONNECTED : str := u "❌ 未连接到MCP服务器".

Definition error_text (e : Exception) : str :=
  u "❌ 处理查询时出错: " ++ str_of e.

Definition process_query (fuel : nat) (self : MCPClient) (query : str)
  : Run (option str) :=
  match mcp_session self with
  | None => ret (Some NOT_CONNECTED)
  | Some _ =>
      try_except (process_query_try fuel self query)
                 (fun e => ret (Some (error_text e)))
  end.

End Client.

Arguments mkState {World} world log messages.
Arguments mkOpenAI {World} create.
Arguments mkMCPClient {World} mcp_session model ai_client.

(** ** server.py *)

Section Server.

(** [urllib.parse.unquote(city, encoding='utf-8')] *)
Variable unquote : str -> str.

(** What [open(file_path, "r", encoding="utf-8")] followed by [f.read()]
    does on the provider's file system: the text, or the exception. *)
Variable open_read : str -> Exception + str.

Definition _read_file_content (file_path : str) : Exception + str :=
  match open_read file_path with
  | inr text => inr text
  | inl e => inr (u "读取文件 " ++ file_path ++ u " 失败: " ++ str_of e)
  end.

Definition city_tourist (city : str) : Exception + str :=
  let city := unquote city in
  _read_file_content (u "./resources/" ++ city ++ u "景点推荐.md").

End Server.

Definition top_beijing_tourist_spots (city_info : str) : str :=
  u "你是旅游博主，非常了解北京文化，按以下内容进行推荐" ++ NL ++ NL ++ city_info.

Definition top_beijing_fine_food (city_info : str) : str :=
  u "你是美食博主，非常了解北京饭馆，按以下内容进行推荐" ++ NL ++ NL ++ city_info.

(** ** Reading the log of a run *)

Definition is_model_request (ev : Event) : bool :=
  match ev with ChatCreate _ _ _ => true | _ => false end.

Definition is_tool_invocation (ev : Event) : bool :=
  match ev with CallTool _ _ => true | _ => false end.

Definition is_catalog_request (ev : Event) : bool :=
  match ev with ListTools => true | _ => false end.

Definition is_augmentation_request (ev : Event) : bool :=
  match ev with ReadResource _ | GetPrompt _ _ => true | _ => false end.

Definition count (p : Event -> bool) (evs : list Event) : nat :=
  length (filter p evs).

(** The schemas the model requests of a log carried, oldest first. *)
Definition schemas_sent (evs : list Event) : list (list FunctionSchema.t) :=
  flat_map (fun ev => match ev with
                      | ChatCreate _ _ tools => [tools]
                      | _ => []
                      end) evs.

(** The message lists the model requests of a log carried, oldest first. *)
Definition histories_sent (evs : list Event) : list (list Message) :=
  flat_map (fun ev => match ev with
                      | ChatCreate _ ms _ => [ms]
                      | _ => []
                      end) evs.

(** The [{role: tool}] entries of a message list. *)
Definition tool_messages (ms : list Message) : list Message :=
  filter (fun m => eqb_str (role m) (u "tool")) ms.

(** [m] is the [{role: tool}] message that answers [tool_call]. *)
Definition answers (m : Message) (tool_call : ToolCall.t) : Prop :=
  exists content, m = ToolMessage content (ToolCall.id tool_call).

Section Conversation.

Variable World : Type.
Variable json_loads : str -> Exception + JSON.
Variable self : MCPClient World.
Variable query : str.
Variable st0 : State World.

(** A request of the [while] loop: a tool invocation, or a model request
    with the client's model and the schemas [tools]. *)
Definition loop_event (tools : list FunctionSchema.t) (ev : Event) : Prop :=
  match ev with
  | CallTool _ _ => True
  | ChatCreate m _ t => m = model self /\ t = tools
  | _ => False
  end.

(** A tool call fails: its arguments text is refused by [json.loads], or
    it is parsed and the invocation raises. *)
Definition tool_call_fails (session : ClientSession World)
    (tool_call : ToolCall.t) (w : World) (e : Exception) : Prop :=
  json_loads (ToolCall.arguments (ToolCall.function tool_call)) = inl e \/
  exists arguments,
    json_loads (ToolCall.arguments (ToolCall.function tool_call))
      = inr arguments /\
    fst (call_tool session (ToolCall.name (ToolCall.function tool_call))
                   arguments w) = inl e.

(** [at_turn n tools m st]: [process_query] on [query], started in [st0],
    has finished [n] passes of its [while] body; it is in state [st], the
    last answer of the model is [m], and [tools] is [openai_tools]. *)
Inductive at_turn
  : nat -> list FunctionSchema.t -> AssistantMessage.t -> State World -> Prop :=
| at_first_answer : forall tools m st,
    first_request self query st0 = (Ret (tools, m), st) ->
    at_turn 0 tools m st
| at_next_answer : forall n tools m st tool_call tool_calls m' st',
    at_turn n tools m st ->
    AssistantMessage.tool_calls m = Some (tool_call :: tool_calls) ->
    turn json_loads self tools (tool_call :: tool_calls) st = (Ret m', st') ->
    at_turn (S n) tools m' st'.

End Conversation.

(** ** The shape of a conversation *)

(** One finished pass of the loop: the answer of the model and the
    messages appended for its tool calls. *)
Definition block (pass : AssistantMessage.t * list Message) : list Message :=
  AssistantDump (fst pass) :: snd pass.

(** The pass had tool calls, and its messages answer them one for one. *)
Definition answered (pass : AssistantMessage.t * list Message) : Prop :=
  exists tool_calls,
    AssistantMessage.tool_calls (fst pass) = Some tool_calls /\
    tool_calls <> [] /\
    Forall2 answers (snd pass) tool_calls.

(** The tool calls that the answers in a message list carry, oldest first. *)
Definition asked (ms : list Message) : list ToolCall.t :=
  flat_map (fun m => match m with
                     | AssistantDump a =>
                         match AssistantMessage.tool_calls a with
                         | Some tool_calls => tool_calls
                         | None => []
                         end
                     | _ => []
                     end) ms.

(** [ev] is the invocation of [tool_call]: its name, and what [json.loads]
    makes of its arguments text. *)
Definition invokes (json_loads : str -> Exception + JSON)
    (ev : Event) (tool_call : ToolCall.t) : Prop :=
  exists arguments,
    json_loads (ToolCall.arguments (ToolCall.function tool_call))
      = inr arguments /\
    ev = CallTool (ToolCall.name (ToolCall.function tool_call)) arguments.

(** The first block of a result cannot be read as text: there is none, or
    it is of a class without the attribute [text]. [e] is what
    [content[0].text] raises then. *)
Definition first_text_missing (content : list Content.t) (e : Exception)
  : Prop :=
  (content = [] /\ e = IndexError) \/
  exists first others,
    content = first :: others /\
    (forall text, first <> Content.TextContent text) /\
    e = AttributeError (Content.class_name first) (u "text").

(** The same for [resource.contents[0].text]. *)
Definition resource_text_missing (contents : list ResourceContents.t)
    (e : Exception) : Prop :=
  (contents = [] /\ e = IndexError) \/
  exists blob others,
    contents = ResourceContents.BlobResourceContents blob :: others /\
    e = AttributeError (u "BlobResourceContents") (u "text").

(** A model request gets no answer to go on with: the backend raises [e],
    or it answers without a choice and [choices[0]] raises. *)
Definition no_answer (reply : Exception + ChatCompletion) (e : Exception)
  : Prop :=
  reply = inl e \/ (reply = inr (mkChatCompletion []) /\ e = IndexError).

(** ** The chat loop of client.py *)

(** What [input()] does at the prompt: it gives a line (without its
    newline), raises an exception, or is interrupted from the keyboard
    ([KeyboardInterrupt] is no [Exception]). *)
Inductive Keyboard : Type :=
| Line (text : str)
| Fails (e : Exception)
| Interrupt.

(** The terminal: what is still to come from standard input, and what was
    written to standard output, oldest first. *)
Record Terminal : Type := mkTerminal {
  stdin : list Keyboard;
  stdout : list str }.

(** What [input()] raises when standard input is at its end. *)
Definition EOFError : Exception := mkException (u "EOF when reading a line").

(** [input(prompt)]: the prompt is written, then a line is read. *)
Definition input (prompt : str) (t : Terminal) : Keyboard * Terminal :=
  match stdin t with
  | key :: keys => (key, mkTerminal keys (stdout t ++ [prompt]))
  | [] => (Fails EOFError, mkTerminal [] (stdout t ++ [prompt]))
  end.

(** [print(text)] *)
Definition print (text : str) (t : Terminal) : Terminal :=
  mkTerminal (stdin t) (stdout t ++ [text ++ NL]).

(** [f"{response}"] for a response that is a text or [None]. *)
Definition format_response (response : option str) : str :=
  match response with
  | Some text => text
  | None => u "None"
  end.

(** [f"\n  回复: {response}"], as printed. *)
Definition reply_line (response : option str) : str :=
  (NL ++ u "  回复: " ++ format_response response) ++ NL.

(** The replies among the texts written, oldest first. *)
Definition replies_written (written : list str) : list str :=
  filter (fun text => startswith text (NL ++ u "  回复: ")) written.

(** [f x] for each [x] of [l] in turn, each run in the state the one
    before left. *)
Fixpoint map_each {S A B} (f : A -> M S B) (l : list A) : M S (list B) :=
  match l with
  | [] => ret []
  | x :: l' => y <- f x ;; ys <- map_each f l' ;; ret (y :: ys)
  end.

Section ChatLoop.

Variable World : Type.
Variable json_loads : str -> Exception + JSON.

(** [str.strip()] and [str.lower()] *)
Variable strip : str -> str.
Variable lower : str -> str.

(** What [chat_loop] works on: the state of the client's runs and the
    terminal. *)
Record Chat : Type := mkChat {
  run : State World;
  terminal : Terminal }.

(** How the [try] block of one pass ends. [Unfinished]: the call of
    [process_query] did not end within its bound. *)
Inductive Attempt : Type :=
| Completed
| Continue
| Break
| Raised (e : Exception)
| Interrupted
| Unfinished.

(** The [try] block of the loop body. The lines [process_query] itself
    prints are left out, as there. *)
Definition attempt (query_fuel : nat) (self : MCPClient World) (c : Chat)
  : Attempt * Chat :=
  let (key, t) := input (NL ++ u ">>>: ") (terminal c) in
  match key with
  | Interrupt => (Interrupted, mkChat (run c) t)
  | Fails e => (Raised e, mkChat (run c) t)
  | Line text =>
      let query := strip text in
      if eqb_str query [] then (Continue, mkChat (run c) t)
      else if eqb_str (lower query) (u "/q") then (Break, mkChat (run c) t)
      else
        let t := print (NL ++ u "  处理中...") t in
        match process_query json_loads query_fuel self query (run c) with
        | (Ret response, st) =>
            (Completed,
             mkChat st (print (NL ++ u "  回复: " ++ format_response response) t))
        | (Raise e, st) => (Raised e, mkChat st t)
        | (OutOfFuel, st) => (Unfinished, mkChat st t)
        end
  end.

(** How one pass of [while True] ends. *)
Inductive Flow : Type :=
| Again
| Leave
| Stuck.

(** The loop body: the [try] block with its two [except] clauses. *)
Definition pass (query_fuel : nat) (self : MCPClient World) (c : Chat)
  : Flow * Chat :=
  match attempt query_fuel self c with
  | (Interrupted, c') =>
      (Leave, mkChat (run c') (print (NL ++ NL ++ u "  已终止会话") (terminal c')))
  | (Raised e, c') =>
      (Again,
       mkChat (run c') (print (NL ++ u "⚠️ 发生错误: " ++ str_of e) (terminal c')))
  | (Break, c') => (Leave, c')
  | (Continue, c') => (Again, c')
  | (Completed, c') => (Again, c')
  | (Unfinished, c') => (Stuck, c')
  end.

(** [while True: ...], with a bound on its passes that the source does not
    have. *)
Fixpoint passes (fuel query_fuel : nat) (self : MCPClient World) (c : Chat)
  : Outcome unit * Chat :=
  match fuel with
  | O => (OutOfFuel, c)
  | S fuel' =>
      match pass query_fuel self c with
      | (Leave, c') => (Ret tt, c')
      | (Again, c') => passes fuel' query_fuel self c'
      | (Stuck, c') => (OutOfFuel, c')
      end
  end.

Definition chat_loop (fuel query_fuel : nat) (self : MCPClient World)
    (c : Chat) : Outcome unit * Chat :=
  passes fuel query_fuel self
    (mkChat (run c) (print (NL ++ u "  开始对话: 输入'/q'退出") (terminal c))).

(** The line is the exit command: stripped it is not empty, and in lower
    case it is "/q". *)
Definition is_exit (text : str) : bool :=
  negb (eqb_str (strip text) []) && eqb_str (lower (strip text)) (u "/q").

(** What ends the loop: the exit command, and an interrupt. *)
Definition ends_loop (key : Keyboard) : bool :=
  match key with
  | Line text => is_exit text
  | Fails _ => false
  | Interrupt => true
  end.

(** The queries among the lines typed: the stripped lines that are not
    empty. *)
Definition queries_of (keys : list Keyboard) : list str :=
  flat_map (fun key => match key with
                       | Line text =>
                           if eqb_str (strip text) [] then []
                           else [strip text]
                       | _ => []
                       end) keys.

End ChatLoop.

Arguments mkChat {World} run terminal.

(** ** A provider and two backends to run the client against *)

Module Demo.

(** The world of the examples: the answers the backend has yet to give. *)
Definition World : Type := list ChatCompletion.

Definition parse_error : Exception :=
  mkException (u "Expecting value: line 1 column 1 (char 0)").

(** [json.loads] on the two argument texts of the examples: ["{}"] is the
    empty object, the empty text is no JSON document. *)
Definition loads (text : str) : Exception + JSON :=
  if eqb_str text (u "{}") then inr (JObject []) else inl parse_error.

(** [unquote] on a text without ['%'], which it returns as it is. *)
Definition unquote_plain (text : str) : str := text.

(** A file system that holds the document of one city. *)
Definition files (path : str) : Exception + str :=
  if eqb_str path (u "./resources/北京景点推荐.md")
  then inr (u "故宫、长城、颐和园")
  else inl (mkException
              (u "[Errno 2] No such file or directory: '" ++ path ++ u "'")).

Definition weather_tool : Tool.t :=
  Tool.mk (u "get_current_weather") (Some (u "天气查询工具"))
          (Some [(u "type", JString (u "object"));
                 (u "required", JArray [JString (u "location")])]).

Definition time_tool : Tool.t :=
  Tool.mk (u "get_current_time") (Some (u "查询当前时间的工具")) None.

(** The handlers of [server.py] behind a session. An unknown tool is
    answered with an error result, not raised. *)
Definition provider : ClientSession World :=
  mkClientSession
    (fun w => (inr [weather_tool; time_tool], w))
    (fun uri w =>
       if eqb_str uri (u "city-tourist-doc://北京/city-tourist.md")
       then match city_tourist unquote_plain files (u "北京") with
            | inr text => (inr [ResourceContents.TextResourceContents text], w)
            | inl e => (inl e, w)
            end
       else (inl (mkException (u "Unknown resource: " ++ uri)), w))
    (fun name arguments w =>
       if eqb_str name (u "top_beijing_tourist_spots")
       then match arguments with
            | [(_, city_info)] =>
                (inr [PromptMessage.mk (u "user")
                        (Content.TextContent
                           (top_beijing_tourist_spots city_info))], w)
            | _ => (inl (mkException (u "Missing required arguments")), w)
            end
       else (inl (mkException (u "Unknown prompt: " ++ name)), w))
    (fun name _ w =>
       if eqb_str name (u "get_current_time")
       then (inr (ToolReturn.CallToolResult
                    [Content.TextContent (u "当前时间：2025-01-01 08:00:00。")]
                    false), w)
       else (inr (ToolReturn.CallToolResult
                    [Content.TextContent (u "Unknown tool: " ++ name)]
                    true), w)).

(** A session whose provider has gone: every request raises. *)
Definition closed : Exception := mkException (u "Connection closed").

Definition lost_provider : ClientSession World :=
  mkClientSession
    (fun w => (inl closed, w))
    (fun _ w => (inl closed, w))
    (fun _ _ w => (inl closed, w))
    (fun _ _ w => (inl closed, w)).

(** A backend that gives the answers of the world in turn. *)
Definition scripted : OpenAI World :=
  mkOpenAI (fun _ _ _ w =>
              match w with
              | answer :: rest => (inr answer, rest)
              | [] => (inl (mkException (u "Connection error.")), [])
              end).

Definition time_call (id arguments : str) : ToolCall.t :=
  ToolCall.mk id (ToolCall.mkFunction (u "get_current_time") arguments).

Definition asks (tool_calls : list ToolCall.t) : ChatCompletion :=
  mkChatCompletion [AssistantMessage.mk None (Some tool_calls)].

Definition says (text : str) : ChatCompletion :=
  mkChatCompletion [AssistantMessage.mk (Some text) None].


Definition client (session : option (ClientSession World))
    (backend : OpenAI World) : MCPClient World :=
  mkMCPClient session (u "Qwen3-235B") backend.

Definition start (answers : World) : State World := mkState answers [] [].

End Demo.

(** ** More scenes to run the client in *)

Module Scenes.

(** The code points for which [str.isspace()] holds; [str.strip()] drops
    them from both ends. *)
Definition is_space (c : N) : bool :=
  ((9 <=? c) && (c <=? 13) || (28 <=? c) && (c <=? 32)
   || (c =? 133) || (c =? 160) || (c =? 5760)
   || (8192 <=? c) && (c <=? 8202)
   || (c =? 8232) || (c =? 8233) || (c =? 8239) || (c =? 8287)
   || (c =? 12288))%N.

Fixpoint lstrip (text : str) : str :=
  match text with
  | c :: text' => if is_space c then lstrip text' else text
  | [] => []
  end.

Definition strip (text : str) : str := rev (lstrip (rev (lstrip text))).

(** [str.lower()] on texts whose cased letters are ASCII. *)
Definition lower (text : str) : str :=
  map (fun c => if ((65 <=? c) && (c <=? 90))%N then (c + 32)%N else c) text.

(** A file system without documents. *)
Definition no_files (path : str) : Exception + str :=
  inl (mkException
         (u "[Errno 2] No such file or directory: '" ++ path ++ u "'")).

(** The handlers of [server.py] over that file system. *)
Definition bare_provider : ClientSession Demo.World :=
  mkClientSession
    (list_tools Demo.provider)
    (fun uri w =>
       match city_tourist Demo.unquote_plain no_files (u "北京") with
       | inr text => (inr [ResourceContents.TextResourceContents text], w)
       | inl e => (inl e, w)
       end)
    (get_prompt Demo.provider)
    (call_tool Demo.provider).

(** A provider whose resources have no contents and whose tools return
    nothing. *)
Definition silent_provider : ClientSession Demo.World :=
  mkClientSession
    (list_tools Demo.provider)
    (fun _ w => (inr [], w))
    (get_prompt Demo.provider)
    (fun _ _ w => (inr (ToolReturn.CallToolResult [] false), w)).

Definition news_call : ToolCall.t :=
  ToolCall.mk (u "call_0") (ToolCall.mkFunction (u "get_news") (u "{}")).

End Scenes.

(** * Properties *)

(** ** Occurrence of a keyword *)

Lemma startswith_prefix (sub s : str) :
  startswith s sub = true <-> exists after, s = sub ++ after.
Proof.
  revert s; induction sub as [|c sub IH]; intros s; simpl.
  - split; [intros _; now exists s | easy].
  - destruct s as [|d s].
    + split; [easy | intros [after H]; discriminate H].
    + rewrite andb_true_iff, N.eqb_eq, IH. split.
      * intros [-> [after ->]]. now exists after.
      * intros [after H]. injection H as -> ->. split; [easy | now exists after].
Qed.

Lemma contains_Occurs (sub s : str) :
  contains s sub = true <-> Occurs sub s.
Proof.
  unfold Occurs. induction s as [|d s IH]; simpl.
  - rewrite orb_false_r, startswith_prefix. split.
    + intros [after H]. exists [], after. exact H.
    + intros [[|x before] [after H]]; [exists after; exact H | discriminate H].
  - rewrite orb_true_iff, startswith_prefix, IH. split.
    + intros [[after H] | [before [after H]]].
      * exists [], after. exact H.
      * exists (d :: before), after. simpl. now rewrite H.
    + intros [[|x before] [after H]].
      * left. exists after. exact H.
      * right. injection H as _ H. exists before, after. exact H.
Qed.

Lemma any_in_Exists (query : str) (indicators : list str) :
  any_in query indicators = true <->
  Exists (fun indicator => Occurs indicator query) indicators.
Proof.
  unfold any_in. rewrite existsb_exists, Exists_exists.
  split; intros [k [Hin H]]; exists k; (split; [exact Hin |]);
    now apply contains_Occurs.
Qed.

Lemma rule_decision (query : str) :
  any_in query [u "北京"] && any_in query [u "景点"; u "旅游"] = true
  <-> matches_rule query.
Proof.
  unfold matches_rule.
  rewrite andb_true_iff, !any_in_Exists. split.
  - intros [HB HT]. split.
    + inversion HB as [? ? H | ? ? H]; [exact H | inversion H].
    + inversion HT as [? ? H | ? ? H]; [now left |].
      inversion H as [? ? H' | ? ? H']; [now right | inversion H'].
  - intros [HB [HT | HT]]; split; auto.
Qed.

Section ClientProperties.

Variable World : Type.
Variable json_loads : str -> Exception + JSON.

Implicit Types (self : MCPClient World) (st : State World) (query : str).

(** ** Augmentation *)

(** C4. A query that matches no augmentation rule (it does not hold both
    the locality keyword and a topic keyword) comes back from
    [select_prompt_and_enhanced_query] exactly as it was, whatever the
    client and its session are; the state is the one the call started in:
    nothing was sent to the session (no [read_resource], no [get_prompt],
    so no template was used), and nothing was raised. *)
Theorem unmatched_query_passes_through self query st :
  ~ matches_rule query ->
  select_prompt_and_enhanced_query self query st = (Ret query, st).
Proof.
  intros Hno. unfold select_prompt_and_enhanced_query.
  destruct (any_in query [u "北京"] && any_in query [u "景点"; u "旅游"])
    eqn:Hrule.
  - exfalso. apply Hno. now apply rule_decision.
  - reflexivity.
Qed.

(** The steps of an augmentation that goes through. *)
Lemma matched_query_is_augmented self session query st
      city_info others w1 r prompt_text others' w2 :
  matches_rule query ->
  mcp_session self = Some session ->
  read_resource session (u "city-tourist-doc://北京/city-tourist.md") (world st)
    = (inr (ResourceContents.TextResourceContents city_info :: others), w1) ->
  get_prompt session (u "top_beijing_tourist_spots")
             [(u "city_info", city_info)] w1
    = (inr (PromptMessage.mk r (Content.TextContent prompt_text) :: others'),
       w2) ->
  select_prompt_and_enhanced_query self query st
  = (Ret (prompt_text ++ NL ++ NL ++ u "用户问题:" ++ NL ++ NL ++ query),
     mkState w2
       (log st ++ [ReadResource (u "city-tourist-doc://北京/city-tourist.md")]
               ++ [GetPrompt (u "top_beijing_tourist_spots")
                             [(u "city_info", city_info)]])
       (messages st)).
Proof.
  intros Hrule Hs Hread Hprompt.
  apply rule_decision in Hrule.
  unfold select_prompt_and_enhanced_query. rewrite Hrule. simpl negb. cbv iota.
  unfold session_attr. rewrite Hs.
  unfold bind, ret, remote. simpl.
  rewrite Hread. simpl. rewrite Hprompt. simpl.
  now rewrite <- app_assoc.
Qed.

(** C8. For the query "北京有什么景点", which holds the locality keyword
    and a topic keyword, a connected client reads the Beijing resource,
    has [top_beijing_tourist_spots] rendered with the text of that
    resource as [city_info], and returns the rendered text, then the
    separator (two newlines, "用户问题:", two newlines), then the query.
    These two are the only requests sent. *)
Theorem beijing_sights_query_is_augmented self session st
      city_info others w1 r prompt_text others' w2 :
  mcp_session self = Some session ->
  read_resource session (u "city-tourist-doc://北京/city-tourist.md") (world st)
    = (inr (ResourceContents.TextResourceContents city_info :: others), w1) ->
  get_prompt session (u "top_beijing_tourist_spots")
             [(u "city_info", city_info)] w1
    = (inr (PromptMessage.mk r (Content.TextContent prompt_text) :: others'),
       w2) ->
  select_prompt_and_enhanced_query self (u "北京有什么景点") st
  = (Ret (prompt_text
          ++ [10; 10; 29992; 25143; 38382; 39064; 58; 10; 10]%N
          ++ u "北京有什么景点"),
     mkState w2
       (log st ++ [ReadResource (u "city-tourist-doc://北京/city-tourist.md");
                   GetPrompt (u "top_beijing_tourist_spots")
                             [(u "city_info", city_info)]])
       (messages st)).
Proof.
  intros Hs Hread Hprompt.
  assert (matches_rule (u "北京有什么景点")) as Hrule
      by (apply rule_decision; vm_compute; reflexivity).
  rewrite (matched_query_is_augmented _ _ Hrule Hs Hread Hprompt).
  reflexivity.
Qed.

(** ** The catalog *)

Lemma or_empty_schema (schema : option Dict) :
  or_empty schema = match schema with Some d => d | None => [] end.
Proof. now destruct schema as [[|entry entries]|]. Qed.

(** C5. When the session lists [tools], a connected client's
    [tools_to_openai_functions] returns as many function schemas, the i-th
    made from the i-th tool: type "function", the tool's name, its
    description, and as parameters its input schema, or the empty object
    when the tool has none. The parameters are a dict in every case. *)
Theorem catalog_is_translated_in_order self session st tools w :
  mcp_session self = Some session ->
  list_tools session (world st) = (inr tools, w) ->
  exists functions,
    tools_to_openai_functions self st
      = (Ret functions, mkState w (log st ++ [ListTools]) (messages st)) /\
    length functions = length tools /\
    forall i tool,
      nth_error tools i = Some tool ->
      nth_error functions i
      = Some (FunctionSchema.mk (u "function")
                (FunctionSchema.mkFn
                   (Tool.name tool) (Tool.description tool)
                   match Tool.inputSchema tool with
                   | Some schema => schema
                   | None => []
                   end)).
Proof.
  intros Hs Hlist. exists (map to_function tools). split; [| split].
  - unfold tools_to_openai_functions, session_attr, bind, ret, remote.
    rewrite Hs. simpl. now rewrite Hlist.
  - apply length_map.
  - intros i tool Hi. rewrite nth_error_map, Hi. simpl.
    unfold to_function. now rewrite or_empty_schema.
Qed.

(** ** What each step sends and appends *)

Lemma select_effects self query st :
  let r := select_prompt_and_enhanced_query self query st in
  fst r <> OutOfFuel /\
  messages (snd r) = messages st /\
  exists aug, log (snd r) = log st ++ aug /\
              Forall (fun ev => is_augmentation_request ev = true) aug.
Proof.
  unfold select_prompt_and_enhanced_query.
  destruct (negb _); [simpl; repeat split; try easy;
                      exists []; now rewrite app_nil_r |].
  unfold session_attr, bind, ret, raise, remote, index0, resource_text,
    content_text.
  destruct (mcp_session self) as [session|]; simpl;
    [| repeat split; try easy; exists []; now rewrite app_nil_r].
  destruct (read_resource session _ (world st)) as [[e|[|[text|blob] others]] w1];
    simpl; try (repeat split; try easy; eexists [_]; split;
                [reflexivity | repeat constructor]).
  destruct (get_prompt session _ _ w1) as [[e|[|[r [text'|d m|res]] others']] w2];
    simpl; rewrite <- app_assoc;
    (repeat split; try easy; eexists [_; _]; split;
     [reflexivity | repeat constructor]).
Qed.

Lemma tools_effects self st :
  match tools_to_openai_functions self st with
  | (Ret functions, st') =>
      exists session tools w,
        mcp_session self = Some session /\
        list_tools session (world st) = (inr tools, w) /\
        functions = map to_function tools /\
        st' = mkState w (log st ++ [ListTools]) (messages st)
  | (Raise e, st') =>
      messages st' = messages st /\
      (log st' = log st \/ log st' = log st ++ [ListTools])
  | (OutOfFuel, _) => False
  end.
Proof.
  unfold tools_to_openai_functions, session_attr, bind, ret, raise, remote.
  destruct (mcp_session self) as [session|] eqn:Hs; simpl; [| auto].
  destruct (list_tools session (world st)) as [[e|tools] w] eqn:Hl; simpl;
    [auto |].
  exists session, tools, w. repeat split; auto.
Qed.

Lemma request_model_effects self tools st :
  match request_model self tools st with
  | (Ret m, st') =>
      log st' = log st ++ [ChatCreate (model self) (messages st) tools] /\
      messages st' = messages st ++ [AssistantDump m]
  | (Raise e, st') =>
      log st' = log st ++ [ChatCreate (model self) (messages st) tools] /\
      messages st' = messages st
  | (OutOfFuel, _) => False
  end.
Proof.
  unfold request_model, read_messages, bind, ret, raise, remote, index0, append.
  destruct (create _ _ _ _ (world st)) as [[e|[[|m others]]] w]; simpl; auto.
Qed.

Lemma run_tool_call_effects self tool_call st :
  let name := ToolCall.name (ToolCall.function tool_call) in
  match run_tool_call json_loads self tool_call st with
  | (Ret _, st') =>
      exists arguments content,
        log st' = log st ++ [CallTool name arguments] /\
        messages st' =
          messages st ++ [ToolMessage content (ToolCall.id tool_call)]
  | (Raise e, st') =>
      messages st' = messages st /\
      (log st' = log st \/
       exists arguments, log st' = log st ++ [CallTool name arguments])
  | (OutOfFuel, _) => False
  end.
Proof.
  unfold run_tool_call, of_reply, session_attr, result_text, bind, ret, raise,
    remote, index0, content_text, append.
  destruct (json_loads _) as [e|arguments]; simpl; [auto |].
  destruct (mcp_session self) as [session|]; simpl; [| auto].
  destruct (call_tool session _ arguments (world st))
    as [[e|[[|[text|d m|res] others] isError|repr]] w]; simpl; eauto.
Qed.

Lemma for_each_app {A} (body : A -> Run World unit) (xs ys : list A) st :
  for_each body (xs ++ ys) st =
  match for_each body xs st with
  | (Ret _, st1) => for_each body ys st1
  | (Raise e, st1) => (Raise e, st1)
  | (OutOfFuel, st1) => (OutOfFuel, st1)
  end.
Proof.
  revert st; induction xs as [|x xs IH]; intros st; simpl; [reflexivity |].
  unfold bind. destruct (body x st) as [[[]|e|] st1]; auto.
Qed.

Lemma for_each_effects self tool_calls st :
  match for_each (run_tool_call json_loads self) tool_calls st with
  | (Ret _, st') =>
      exists tms evs,
        messages st' = messages st ++ tms /\
        Forall2 answers tms tool_calls /\
        log st' = log st ++ evs /\
        Forall (fun ev => is_tool_invocation ev = true) evs /\
        length evs = length tool_calls
  | (Raise e, st') =>
      exists done tool_call rest st1 tms evs,
        tool_calls = done ++ tool_call :: rest /\
        for_each (run_tool_call json_loads self) done st = (Ret tt, st1) /\
        run_tool_call json_loads self tool_call st1 = (Raise e, st') /\
        messages st' = messages st ++ tms /\
        Forall2 answers tms done /\
        log st' = log st ++ evs /\
        Forall (fun ev => is_tool_invocation ev = true) evs
  | (OutOfFuel, _) => False
  end.
Proof.
  revert st; induction tool_calls as [|c cs IH]; intros st; simpl.
  - exists [], []. rewrite !app_nil_r. repeat split; constructor.
  - unfold bind at 1.
    pose proof (run_tool_call_effects self c st) as Hc. cbv zeta in Hc.
    destruct (run_tool_call json_loads self c st) as [[[]|e|] st1] eqn:Ec.
    + destruct Hc as (arguments & content & Hlog & Hms).
      specialize (IH st1).
      destruct (for_each _ cs st1) as [[[]|e|] st2] eqn:Ecs.
      * destruct IH as (tms & evs & Hms' & Hans & Hlog' & Hevs & Hlen).
        exists (ToolMessage content (ToolCall.id c) :: tms),
               (CallTool (ToolCall.name (ToolCall.function c)) arguments :: evs).
        rewrite Hms', Hms, Hlog', Hlog, <- !app_assoc. simpl.
        repeat split; auto.
        constructor; [now exists content | exact Hans].
      * destruct IH as (done & c' & rest & st1' & tms & evs & Hcs & Hdone
                        & Hc' & Hms' & Hans & Hlog' & Hevs).
        exists (c :: done), c', rest, st1',
               (ToolMessage content (ToolCall.id c) :: tms),
               (CallTool (ToolCall.name (ToolCall.function c)) arguments :: evs).
        rewrite Hms', Hms, Hlog', Hlog, <- !app_assoc, Hcs. simpl.
        unfold bind. rewrite Ec, Hdone.
        repeat split; auto.
        constructor; [now exists content | exact Hans].
      * exact IH.
    + destruct Hc as (Hms & Hlog).
      destruct Hlog as [Hlog | [arguments Hlog]].
      * exists [], c, cs, st, [], []. rewrite !app_nil_r.
        repeat split; auto.
      * exists [], c, cs, st, [],
               [CallTool (ToolCall.name (ToolCall.function c)) arguments].
        rewrite app_nil_r. repeat split; auto.
    + exact Hc.
Qed.

Lemma tool_invocations_are_loop_events self tools evs :
  Forall (fun ev => is_tool_invocation ev = true) evs ->
  Forall (loop_event self tools) evs.
Proof.
  apply Forall_impl. intros [] H; simpl in *; try discriminate; exact I.
Qed.

Lemma turn_effects self tools tool_calls st :
  match turn json_loads self tools tool_calls st with
  | (Ret m', st') =>
      exists tms evs,
        Forall2 answers tms tool_calls /\
        messages st' = messages st ++ tms ++ [AssistantDump m'] /\
        log st' = log st ++ evs
                  ++ [ChatCreate (model self) (messages st ++ tms) tools] /\
        Forall (fun ev => is_tool_invocation ev = true) evs /\
        length evs = length tool_calls
  | (Raise e, st') =>
      exists evs, log st' = log st ++ evs /\ Forall (loop_event self tools) evs
  | (OutOfFuel, _) => False
  end.
Proof.
  unfold turn, bind.
  pose proof (for_each_effects self tool_calls st) as Hf.
  destruct (for_each _ tool_calls st) as [[[]|e|] st1]; [| | exact Hf].
  - destruct Hf as (tms & evs & Hms & Hans & Hlog & Hevs & Hlen).
    pose proof (request_model_effects self tools st1) as Hr.
    destruct (request_model self tools st1) as [[m'|e|] st2]; [| | exact Hr].
    + destruct Hr as [Hlog' Hms']. exists tms, evs.
      rewrite Hms', Hlog', Hms, Hlog, <- !app_assoc. repeat split; auto.
    + destruct Hr as [Hlog' Hms'].
      exists (evs ++ [ChatCreate (model self) (messages st1) tools]).
      rewrite Hlog', Hlog, <- app_assoc. split; [reflexivity |].
      apply Forall_app. split.
      * now apply tool_invocations_are_loop_events.
      * repeat constructor.
  - destruct Hf as (done & c & rest & st1' & tms & evs & _ & _ & _ & _ & _
                    & Hlog & Hevs).
    exists evs. split; [exact Hlog |].
    now apply tool_invocations_are_loop_events.
Qed.

Lemma while_effects fuel self tools m st :
  let r := while_tool_calls json_loads fuel self tools m st in
  exists evs, log (snd r) = log st ++ evs /\
              Forall (loop_event self tools) evs.
Proof.
  revert m st; induction fuel as [|fuel IH]; intros m st; simpl;
    destruct (AssistantMessage.tool_calls m) as [[|c cs]|];
    try (exists []; now rewrite app_nil_r).
  unfold bind.
  pose proof (turn_effects self tools (c :: cs) st) as Ht.
  destruct (turn json_loads self tools (c :: cs) st) as [[m'|e|] st1];
    [| exact Ht | destruct Ht].
  destruct Ht as (tms & evs & _ & _ & Hlog & Hevs & _).
  destruct (IH m' st1) as (evs' & Hlog' & Hevs').
  exists ((evs ++ [ChatCreate (model self) (messages st ++ tms) tools]) ++ evs').
  rewrite Hlog', Hlog, <- !app_assoc. split; [reflexivity |].
  rewrite !Forall_app. repeat split; auto.
  - now apply tool_invocations_are_loop_events.
  - repeat constructor.
Qed.

Lemma first_request_effects self query st :
  match first_request self query st with
  | (Ret (tools, m), st') =>
      exists enhanced_query st1 st2 aug,
        select_prompt_and_enhanced_query self query st
          = (Ret enhanced_query, st1) /\
        tools_to_openai_functions self st1 = (Ret tools, st2) /\
        Forall (fun ev => is_augmentation_request ev = true) aug /\
        log st' = log st ++ aug
                  ++ [ListTools;
                      ChatCreate (model self) [UserMessage enhanced_query] tools]
        /\ messages st' = [UserMessage enhanced_query; AssistantDump m]
  | (Raise e, st') =>
      exists aug,
        Forall (fun ev => is_augmentation_request ev = true) aug /\
        (log st' = log st ++ aug \/
         log st' = log st ++ aug ++ [ListTools] \/
         exists enhanced_query st1 tools st2,
           select_prompt_and_enhanced_query self query st
             = (Ret enhanced_query, st1) /\
           tools_to_openai_functions self st1 = (Ret tools, st2) /\
           log st' = log st ++ aug
                     ++ [ListTools;
                         ChatCreate (model self) [UserMessage enhanced_query]
                                    tools])
  | (OutOfFuel, _) => False
  end.
Proof.
  unfold first_request, bind.
  destruct (select_effects self query st) as (Hfuel & _ & aug & Hlog & Haug).
  destruct (select_prompt_and_enhanced_query self query st)
    as [[enhanced_query|e|] st1] eqn:Es; simpl in *; [| | now apply Hfuel].
  2:{ exists aug. auto. }
  pose proof (tools_effects self st1) as Ht.
  destruct (tools_to_openai_functions self st1) as [[tools|e|] st2] eqn:Et;
    [| | exact Ht].
  2:{ exists aug. destruct Ht as [_ [Ht | Ht]]; rewrite Ht, Hlog;
      [auto | rewrite <- app_assoc; auto]. }
  destruct Ht as (session & ts & w & _ & _ & _ & ->).
  unfold assign_messages. simpl.
  match goal with |- context [request_model self tools ?s] =>
    pose proof (request_model_effects self tools s) as Hr;
    destruct (request_model self tools s) as [[m|e|] st3]
  end; simpl in *; [| | exact Hr].
  - destruct Hr as [Hlog' Hms]. eexists enhanced_query, st1, _, aug.
    rewrite Hlog', Hms, Hlog, <- !app_assoc.
    repeat split; [exact Et | exact Haug].
  - destruct Hr as [Hlog' Hms]. exists aug. split; [exact Haug |].
    right; right. eexists enhanced_query, st1, tools, _.
    rewrite Hlog', Hlog, <- !app_assoc.
    repeat split; exact Et.
Qed.

(** ** Where a conversation stands *)

Lemma at_turn_resumes self query st0 n tools m st :
  at_turn json_loads self query st0 n tools m st ->
  forall fuel,
    process_query_try json_loads (n + fuel) self query st0 =
    (m' <- while_tool_calls json_loads fuel self tools m ;;
     ret (AssistantMessage.content m')) st.
Proof.
  induction 1 as [tools m st Hfirst
                 | n tools m st c cs m' st' _ IH Hcalls Hturn]; intros fuel.
  - unfold process_query_try. unfold bind at 1. now rewrite Hfirst.
  - replace (S n + fuel) with (n + S fuel) by lia. rewrite IH.
    unfold bind at 1. simpl. rewrite Hcalls.
    unfold bind at 1. now rewrite Hturn.
Qed.

Lemma at_turn_session self query st0 n tools m st :
  at_turn json_loads self query st0 n tools m st ->
  exists session, mcp_session self = Some session.
Proof.
  induction 1 as [tools m st Hfirst | ]; [| assumption].
  pose proof (first_request_effects self query st0) as H.
  rewrite Hfirst in H. destruct H as (eq & st1 & st2 & aug & _ & Ht & _).
  pose proof (tools_effects self st1) as H. rewrite Ht in H.
  destruct H as (session & _ & _ & Hs & _). now exists session.
Qed.

Lemma at_turn_last_message self query st0 n tools m st :
  at_turn json_loads self query st0 n tools m st ->
  exists history, messages st = history ++ [AssistantDump m].
Proof.
  destruct 1 as [tools m st Hfirst | n tools m st c cs m' st' _ _ Hturn].
  - pose proof (first_request_effects self query st0) as H.
    rewrite Hfirst in H. destruct H as (eq & _ & _ & _ & _ & _ & _ & _ & Hms).
    exists [UserMessage eq]. exact Hms.
  - pose proof (turn_effects self tools (c :: cs) st) as H.
    rewrite Hturn in H. destruct H as (tms & _ & _ & Hms & _).
    exists (messages st ++ tms). now rewrite Hms, app_assoc.
Qed.

Lemma count_app p (xs ys : list Event) :
  count p (xs ++ ys) = count p xs + count p ys.
Proof. unfold count. now rewrite filter_app, length_app. Qed.

Lemma count_none p q (evs : list Event) :
  (forall ev, q ev = true -> p ev = false) ->
  Forall (fun ev => q ev = true) evs -> count p evs = 0.
Proof.
  intros Hpq. unfold count. induction 1 as [|ev evs Hev _ IH]; simpl;
    [reflexivity |].
  now rewrite (Hpq _ Hev).
Qed.

Lemma augmentation_is_no_model_request ev :
  is_augmentation_request ev = true -> is_model_request ev = false.
Proof. now destruct ev. Qed.

Lemma augmentation_is_no_tool_invocation ev :
  is_augmentation_request ev = true -> is_tool_invocation ev = false.
Proof. now destruct ev. Qed.

Lemma augmentation_is_no_catalog_request ev :
  is_augmentation_request ev = true -> is_catalog_request ev = false.
Proof. now destruct ev. Qed.

(** ** The first answer of the model *)

(** C3. When the first answer of the model carries no tool calls
    ([tool_calls] absent or empty), [process_query] returns the content of
    that answer, with any bound on the passes of the loop, zero included:
    the [while] test alone decides, no pass is entered. The requests of the
    whole invocation hold one model request, the last of them (sent with
    the single user message), and no tool invocation. *)
Theorem answer_without_tool_calls_is_final
    fuel self query st tools m st1 :
  first_request self query st = (Ret (tools, m), st1) ->
  AssistantMessage.tool_calls m = None \/
  AssistantMessage.tool_calls m = Some [] ->
  process_query json_loads fuel self query st
    = (Ret (AssistantMessage.content m), st1) /\
  exists evs before enhanced_query,
    log st1 = log st ++ evs /\
    evs = before
          ++ [ChatCreate (model self) [UserMessage enhanced_query] tools] /\
    count is_model_request evs = 1 /\
    count is_tool_invocation evs = 0.
Proof.
  intros Hfirst Hcalls.
  destruct (at_turn_session (at_first_answer json_loads _ _ _ Hfirst))
    as [session Hs].
  split.
  - unfold process_query, try_except. rewrite Hs.
    rewrite (at_turn_resumes (at_first_answer json_loads _ _ _ Hfirst) fuel
             : process_query_try json_loads fuel self query st = _).
    unfold bind.
    destruct fuel; simpl; destruct Hcalls as [-> | ->]; reflexivity.
  - pose proof (first_request_effects self query st) as H.
    rewrite Hfirst in H.
    destruct H as (eq & _ & _ & aug & _ & _ & Haug & Hlog & _).
    exists ((aug ++ [ListTools])
            ++ [ChatCreate (model self) [UserMessage eq] tools]),
           (aug ++ [ListTools]), eq.
    split; [now rewrite Hlog, <- !app_assoc |].
    split; [reflexivity |].
    rewrite !count_app.
    rewrite (@count_none _ _ _ augmentation_is_no_model_request Haug).
    rewrite (@count_none _ _ _ augmentation_is_no_tool_invocation Haug).
    split; reflexivity.
Qed.

(** ** Failures *)

Lemma process_query_connected fuel self session query st :
  mcp_session self = Some session ->
  process_query json_loads fuel self query st =
  match process_query_try json_loads fuel self query st with
  | (Raise e, st') => (Ret (Some (error_text e)), st')
  | other => other
  end.
Proof. intros Hs. unfold process_query, try_except. now rewrite Hs. Qed.

Lemma failed_selection_fails_the_try fuel self query st e st' :
  select_prompt_and_enhanced_query self query st = (Raise e, st') ->
  process_query_try json_loads fuel self query st = (Raise e, st').
Proof.
  intros H. unfold process_query_try, first_request, bind. now rewrite H.
Qed.

(** C6. For a query that matches the rule, when the session is connected
    and reading the rule's resource raises, or the resource is read and
    rendering the rule's prompt with it raises, [process_query] returns the
    error text made of that exception's description. The requests sent are
    the augmentation's own: no catalog request and no model request
    follows, so the conversation does not go on with the query as it
    was. *)
Theorem failed_augmentation_is_the_answer fuel self session query st e w :
  mcp_session self = Some session ->
  matches_rule query ->
  read_resource session (u "city-tourist-doc://北京/city-tourist.md") (world st)
    = (inl e, w) \/
  (exists city_info others w1,
     read_resource session (u "city-tourist-doc://北京/city-tourist.md")
                   (world st)
       = (inr (ResourceContents.TextResourceContents city_info :: others), w1)
     /\ get_prompt session (u "top_beijing_tourist_spots")
                   [(u "city_info", city_info)] w1 = (inl e, w)) ->
  exists evs,
    process_query json_loads fuel self query st
      = (Ret (Some (error_text e)), mkState w (log st ++ evs) (messages st)) /\
    Forall (fun ev => is_augmentation_request ev = true) evs /\
    count is_model_request evs = 0 /\
    count is_catalog_request evs = 0 /\
    count is_tool_invocation evs = 0.
Proof.
  intros Hs Hrule Hfail.
  assert (exists evs,
             select_prompt_and_enhanced_query self query st
               = (Raise e, mkState w (log st ++ evs) (messages st)) /\
             Forall (fun ev => is_augmentation_request ev = true) evs)
    as (evs & Hsel & Hevs).
  { apply rule_decision in Hrule.
    unfold select_prompt_and_enhanced_query. rewrite Hrule. simpl negb.
    cbv iota. unfold session_attr. rewrite Hs.
    unfold bind, ret, remote. simpl.
    destruct Hfail as [Hread | (city_info & others & w1 & Hread & Hprompt)];
      rewrite Hread; simpl.
    - eexists [_]. split; [reflexivity | repeat constructor].
    - rewrite Hprompt. simpl. rewrite <- app_assoc.
      eexists [_; _]. split; [reflexivity | repeat constructor]. }
  exists evs.
  rewrite (process_query_connected fuel _ _ _ Hs).
  rewrite (failed_selection_fails_the_try fuel _ _ _ Hsel).
  repeat split; try exact Hevs.
  - exact (@count_none _ _ _ augmentation_is_no_model_request Hevs).
  - exact (@count_none _ _ _ augmentation_is_no_catalog_request Hevs).
  - exact (@count_none _ _ _ augmentation_is_no_tool_invocation Hevs).
Qed.

(** ** Tool calls *)

Lemma failed_tool_call_raises self session tool_call st e :
  mcp_session self = Some session ->
  tool_call_fails json_loads session tool_call (world st) e ->
  exists st',
    run_tool_call json_loads self tool_call st = (Raise e, st') /\
    messages st' = messages st /\
    (log st' = log st \/
     exists arguments,
       log st' = log st ++ [CallTool (ToolCall.name (ToolCall.function tool_call))
                                     arguments]).
Proof.
  intros Hs Hfail.
  unfold run_tool_call, of_reply, session_attr, bind, ret, raise, remote.
  destruct Hfail as [Hparse | (arguments & Hparse & Hcall)]; rewrite Hparse;
    simpl.
  - eexists. repeat split. now left.
  - rewrite Hs. simpl.
    destruct (call_tool session _ arguments (world st)) as [reply w].
    simpl in Hcall. subst reply. simpl.
    eexists. repeat split. right. now exists arguments.
Qed.

(** C1, as the code has it. In any turn of any conversation of a connected
    client, let the tool calls before [tool_call] have run and [tool_call]
    fail with [e]. Then, with a bound that lets the loop get this far,
    [process_query] returns the error text of [e]. The state it ends in is
    the one the failing call left: no message was appended for it, and the
    log holds nothing after the calls done before it but, when its
    arguments were parsed, its own invocation. The calls after it in the
    turn are not run and no other model request is sent. *)
Theorem failed_tool_call_ends_the_query
    fuel self session query st0 n tools m st done tool_call rest st1 e :
  mcp_session self = Some session ->
  at_turn json_loads self query st0 n tools m st ->
  AssistantMessage.tool_calls m = Some (done ++ tool_call :: rest) ->
  for_each (run_tool_call json_loads self) done st = (Ret tt, st1) ->
  tool_call_fails json_loads session tool_call (world st1) e ->
  n < fuel ->
  exists st2,
    process_query json_loads fuel self query st0
      = (Ret (Some (error_text e)), st2) /\
    messages st2 = messages st1 /\
    (log st2 = log st1 \/
     exists arguments,
       log st2 = log st1 ++ [CallTool (ToolCall.name (ToolCall.function tool_call))
                                      arguments]).
Proof.
  intros Hs Hat Hcalls Hdone Hfail Hfuel.
  destruct (failed_tool_call_raises _ _ Hs Hfail) as (st2 & Hrun & Hms & Hlog).
  exists st2. split; [| now split].
  rewrite (process_query_connected fuel _ _ _ Hs).
  replace fuel with (n + S (fuel - S n)) by lia.
  rewrite (at_turn_resumes Hat).
  assert (turn json_loads self tools (done ++ tool_call :: rest) st
          = (Raise e, st2)) as Hturn.
  { unfold turn. unfold bind at 1. rewrite for_each_app, Hdone. simpl.
    unfold bind at 1. now rewrite Hrun. }
  unfold bind at 1. simpl. rewrite Hcalls.
  destruct (done ++ tool_call :: rest) as [|c cs] eqn:Hshape;
    [now destruct done |].
  unfold bind at 1. now rewrite Hturn.
Qed.

Lemma tool_invocations_send_no_history evs :
  Forall (fun ev => is_tool_invocation ev = true) evs ->
  histories_sent evs = [].
Proof.
  induction 1 as [|ev evs Hev _ IH]; [reflexivity |].
  destruct ev; try discriminate; exact IH.
Qed.

(** C2, as the code has it. In any turn of any conversation the last
    message is the model's answer [m]. When the [for] loop over its tool
    calls ends without an exception, the messages it appended answer the
    tool calls one for one and in their order: as many [{role: tool}]
    messages as calls, the i-th with the id of the i-th call; the one model
    request that follows is sent with the messages so far and exactly
    these. When a call raises, the appended messages answer, in the same
    way, only the calls before it. The loop itself always ends. *)
Theorem tool_messages_answer_tool_calls
    self query st0 n tools m st tool_calls :
  at_turn json_loads self query st0 n tools m st ->
  AssistantMessage.tool_calls m = Some tool_calls ->
  (exists history, messages st = history ++ [AssistantDump m]) /\
  match for_each (run_tool_call json_loads self) tool_calls st with
  | (Ret _, st') =>
      exists tms,
        messages st' = messages st ++ tms /\
        length tms = length tool_calls /\
        Forall2 answers tms tool_calls
  | (Raise e, st') =>
      exists done tool_call rest tms,
        tool_calls = done ++ tool_call :: rest /\
        messages st' = messages st ++ tms /\
        Forall2 answers tms done
  | (OutOfFuel, _) => False
  end /\
  (forall m' st',
     turn json_loads self tools tool_calls st = (Ret m', st') ->
     exists tms evs,
       Forall2 answers tms tool_calls /\
       messages st' = messages st ++ tms ++ [AssistantDump m'] /\
       log st' = log st ++ evs /\
       histories_sent evs = [messages st ++ tms]).
Proof.
  intros Hat Hcalls. split; [exact (at_turn_last_message Hat) | split].
  - pose proof (for_each_effects self tool_calls st) as H.
    destruct (for_each _ tool_calls st) as [[[]|e|] st']; [| | exact H].
    + destruct H as (tms & evs & Hms & Hans & _).
      exists tms. repeat split; auto. exact (Forall2_length Hans).
    + destruct H as (done & c & rest & st1 & tms & evs & Hshape & _ & _ & Hms
                     & Hans & _).
      now exists done, c, rest, tms.
  - intros m' st' Hturn.
    pose proof (turn_effects self tools tool_calls st) as H.
    rewrite Hturn in H.
    destruct H as (tms & evs & Hans & Hms & Hlog & Hevs & _).
    exists tms, (evs ++ [ChatCreate (model self) (messages st ++ tms) tools]).
    repeat split; auto.
    unfold histories_sent. rewrite flat_map_app.
    fold (histories_sent evs).
    now rewrite (tool_invocations_send_no_history Hevs).
Qed.

(** ** The public face of process_query *)




(** ** The schemas and the messages of one invocation *)

Lemma select_frame self query w l ms ms' :
  select_prompt_and_enhanced_query self query (mkState w l ms) =
  (let r := select_prompt_and_enhanced_query self query (mkState w l ms') in
   (fst r, mkState (world (snd r)) (log (snd r)) ms)).
Proof.
  unfold select_prompt_and_enhanced_query.
  destruct (negb _); [reflexivity |].
  unfold session_attr, bind, ret, raise, remote, index0, resource_text,
    content_text.
  destruct (mcp_session self) as [session|]; simpl; [| reflexivity].
  destruct (read_resource session _ w) as [[e|[|[text|blob] others]] w1];
    simpl; try reflexivity.
  destruct (get_prompt session _ _ w1)
    as [[e|[|[r [text'|d m|res]] others']] w2]; reflexivity.
Qed.

Lemma tools_frame self w l ms ms' :
  tools_to_openai_functions self (mkState w l ms) =
  (let r := tools_to_openai_functions self (mkState w l ms') in
   (fst r, mkState (world (snd r)) (log (snd r)) ms)).
Proof.
  unfold tools_to_openai_functions, session_attr, bind, ret, raise, remote.
  destruct (mcp_session self) as [session|]; simpl; [| reflexivity].
  now destruct (list_tools session w) as [[e|tools] w1].
Qed.

Lemma bind_run {A B} (m : Run World A) (k : A -> Run World B) st :
  bind m k st =
  match m st with
  | (Ret a, st') => k a st'
  | (Raise e, st') => (Raise e, st')
  | (OutOfFuel, st') => (OutOfFuel, st')
  end.
Proof. reflexivity. Qed.

Lemma first_request_frame self query w l ms ms' :
  let r := first_request self query (mkState w l ms) in
  let r' := first_request self query (mkState w l ms') in
  fst r = fst r' /\ world (snd r) = world (snd r') /\
  log (snd r) = log (snd r') /\
  (forall x, fst r' = Ret x -> r = r').
Proof.
  unfold first_request. cbv zeta. rewrite !bind_run.
  rewrite (select_frame self query w l ms ms').
  destruct (select_prompt_and_enhanced_query self query (mkState w l ms'))
    as [[enhanced_query|e|] [w1 l1 ms1]]; simpl; try easy.
  rewrite !bind_run, (tools_frame self w1 l1 ms ms1).
  destruct (tools_to_openai_functions self (mkState w1 l1 ms1))
    as [[tools|e|] [w2 l2 ms2]]; simpl; easy.
Qed.

Lemma process_query_frame fuel self query w l ms ms' :
  let r := process_query json_loads fuel self query (mkState w l ms) in
  let r' := process_query json_loads fuel self query (mkState w l ms') in
  fst r = fst r' /\ world (snd r) = world (snd r') /\
  log (snd r) = log (snd r').
Proof.
  unfold process_query. destruct (mcp_session self); [| easy].
  unfold try_except, process_query_try. cbv zeta. rewrite !bind_run.
  destruct (first_request_frame self query w l ms ms') as (Ho & Hw & Hl & Heq).
  destruct (first_request self query (mkState w l ms')) as [[x|e|] s'];
    simpl in *.
  - rewrite (Heq x eq_refl). easy.
  - destruct (first_request self query (mkState w l ms)) as [o s].
    simpl in *. subst o. easy.
  - destruct (first_request self query (mkState w l ms)) as [o s].
    simpl in *. subst o. easy.
Qed.

Lemma schemas_sent_app evs evs' :
  schemas_sent (evs ++ evs') = schemas_sent evs ++ schemas_sent evs'.
Proof. apply flat_map_app. Qed.

Lemma augmentation_sends_no_schema aug :
  Forall (fun ev => is_augmentation_request ev = true) aug ->
  schemas_sent aug = [].
Proof.
  induction 1 as [|ev aug Hev _ IH]; [reflexivity |].
  destruct ev; try discriminate; exact IH.
Qed.

Lemma loop_events_reuse_schemas self tools evs :
  Forall (loop_event self tools) evs ->
  count is_catalog_request evs = 0 /\
  Forall (fun sent => sent = tools) (schemas_sent evs).
Proof.
  induction 1 as [|ev evs Hev _ [IHc IHs]]; [split; constructor |].
  destruct ev; simpl in Hev; try contradiction.
  - split; [exact IHc | exact IHs].
  - destruct Hev as [_ ->]. split; [exact IHc | now constructor].
Qed.

Lemma process_query_state fuel self session query st :
  mcp_session self = Some session ->
  snd (process_query json_loads fuel self query st)
  = snd (process_query_try json_loads fuel self query st).
Proof.
  intros Hs. rewrite (process_query_connected fuel _ _ _ Hs).
  now destruct (process_query_try json_loads fuel self query st)
    as [[r|e|] st'].
Qed.

(** C9. A conversation begins when a session is connected and the
    augmentation has returned the text of the user message. From there one
    invocation of [process_query], with any bound on the passes of its loop
    and whether or not it returns, sends exactly one catalog request: after
    the requests of the augmentation, before every model request. When the
    session answers it, the first model request follows at once, with the
    single user message and the schemas [tools_to_openai_functions] makes of
    the answer, and every model request of the invocation carries those
    same schemas. When the session refuses it, nothing more is sent and the
    error text is returned. Nothing is kept from one invocation to the
    next: the outcome, the world and the requests are the same whatever
    message list the state held before, and the schemas are asked for
    again. *)
Theorem schemas_are_fetched_once_and_reused
    fuel self session query st enhanced_query st1 :
  mcp_session self = Some session ->
  select_prompt_and_enhanced_query self query st = (Ret enhanced_query, st1) ->
  let r := process_query json_loads fuel self query st in
  (exists aug rest,
     log st1 = log st ++ aug /\
     Forall (fun ev => is_augmentation_request ev = true) aug /\
     log (snd r) = log st ++ aug ++ ListTools :: rest /\
     count is_catalog_request (aug ++ ListTools :: rest) = 1 /\
     match fst (list_tools session (world st1)) with
     | inr listed =>
         exists rest',
           rest = ChatCreate (model self) [UserMessage enhanced_query]
                             (map to_function listed) :: rest' /\
           Forall (fun sent => sent = map to_function listed)
                  (schemas_sent (aug ++ ListTools :: rest))
     | inl e => rest = [] /\ fst r = Ret (Some (error_text e))
     end) /\
  (forall ms,
     let r' := process_query json_loads fuel self query
                 (mkState (world st) (log st) ms) in
     fst r' = fst r /\ world (snd r') = world (snd r) /\
     log (snd r') = log (snd r)).
Proof.
  intros Hs Hsel r. subst r. split.
  2:{ intros ms. destruct st as [w l ms0]. apply process_query_frame. }
  destruct (select_effects self query st) as (_ & _ & aug & Hlog1 & Haug).
  rewrite Hsel in Hlog1. cbn [snd] in Hlog1.
  exists aug.
  assert (forall rest,
             count is_catalog_request rest = 0 ->
             count is_catalog_request (aug ++ ListTools :: rest) = 1)
    as Honce.
  { intros rest Hrest. rewrite count_app.
    rewrite (@count_none _ _ _ augmentation_is_no_catalog_request Haug).
    change (count is_catalog_request (ListTools :: rest))
      with (S (count is_catalog_request rest)).
    now rewrite Hrest. }
  rewrite (process_query_connected fuel _ _ _ Hs).
  unfold process_query_try, first_request.
  rewrite !bind_run, Hsel, bind_run.
  assert (tools_to_openai_functions self st1 =
          let (reply, w) := list_tools session (world st1) in
          (match reply with
           | inl e => Raise e
           | inr listed => Ret (map to_function listed)
           end,
           mkState w (log st1 ++ [ListTools]) (messages st1))) as Htools.
  { unfold tools_to_openai_functions, session_attr, bind, ret, remote.
    rewrite Hs. now destruct (list_tools session (world st1)) as [[e|listed] w]. }
  rewrite Htools. clear Htools.
  destruct (list_tools session (world st1)) as [[e|listed] w];
    cbn [fst snd].
  - exists []. cbn [fst snd log]. rewrite Hlog1, <- app_assoc.
    repeat split; auto.
  - rewrite bind_run. unfold assign_messages at 1. rewrite bind_run.
    cbn [world log messages].
    match goal with |- context [request_model self ?tools ?s] =>
      pose proof (request_model_effects self tools s) as Hr;
      destruct (request_model self tools s) as [[m|e|] st3]
    end; cbn [log messages] in Hr; [| | destruct Hr].
    + destruct Hr as [Hlog3 _]. unfold ret at 1. rewrite bind_run.
      cbn [fst snd].
      destruct (while_effects fuel self (map to_function listed) m st3)
        as (rest & Hlog' & Hrest).
      cbv zeta in Hlog'.
      destruct (loop_events_reuse_schemas Hrest) as [Hcat Hsent].
      exists (ChatCreate (model self) [UserMessage enhanced_query]
                         (map to_function listed) :: rest).
      repeat split; auto.
      * destruct (while_tool_calls json_loads fuel self _ m st3)
          as [[m'|e|] st4]; unfold ret; cbn [fst snd] in *;
          rewrite Hlog', Hlog3, Hlog1, <- !app_assoc; reflexivity.
      * exists rest. split; [reflexivity |].
        rewrite schemas_sent_app, (augmentation_sends_no_schema Haug).
        simpl. now constructor.
    + destruct Hr as [Hlog3 _].
      exists [ChatCreate (model self) [UserMessage enhanced_query]
                         (map to_function listed)].
      cbn [fst snd]. rewrite Hlog3, Hlog1, <- !app_assoc.
      repeat split; auto.
      exists []. split; [reflexivity |].
      rewrite schemas_sent_app, (augmentation_sends_no_schema Haug).
      simpl. now constructor.
Qed.

End ClientProperties.

(** ** The provider's resource handler *)

Section ServerProperties.

Variable unquote : str -> str.
Variable open_read : str -> Exception + str.

Lemma city_tourist_returns (city : str) :
  exists text, city_tourist unquote open_read city = inr text.
Proof.
  unfold city_tourist, _read_file_content.
  destruct (open_read _) as [e|text]; eauto.
Qed.

(** C7, as the code has it. When the document of a city cannot be opened
    or read, [city_tourist] does not fail: it returns, as the text of the
    resource, a message that names the file and the error. *)
Theorem unreadable_document_is_reported_as_text (city : str) (e : Exception) :
  open_read (u "./resources/" ++ unquote city ++ u "景点推荐.md") = inl e ->
  city_tourist unquote open_read city
  = inr (u "读取文件 "
         ++ (u "./resources/" ++ unquote city ++ u "景点推荐.md")
         ++ u " 失败: " ++ str_of e).
Proof.
  intros Hopen. unfold city_tourist, _read_file_content. now rewrite Hopen.
Qed.

End ServerProperties.

(** * The properties at work *)

Example unmatched_query_example :
  ~ matches_rule (u "今天天气怎么样") /\
  select_prompt_and_enhanced_query
    (Demo.client None Demo.scripted) (u "今天天气怎么样") (Demo.start [])
  = (Ret (u "今天天气怎么样"), Demo.start []).
Proof.
  assert (~ matches_rule (u "今天天气怎么样")) as Hno.
  { intros H. apply rule_decision in H. vm_compute in H. discriminate H. }
  split; [exact Hno |].
  exact (unmatched_query_passes_through
           (Demo.client None Demo.scripted) (Demo.start []) Hno).
Defined.

Example beijing_sights_query_example :
  select_prompt_and_enhanced_query
    (Demo.client (Some Demo.provider) Demo.scripted)
    (u "北京有什么景点") (Demo.start [])
  = (Ret (u "你是旅游博主，非常了解北京文化，按以下内容进行推荐"
          ++ NL ++ NL ++ u "故宫、长城、颐和园"
          ++ NL ++ NL ++ u "用户问题:" ++ NL ++ NL ++ u "北京有什么景点"),
     mkState []
       [ReadResource (u "city-tourist-doc://北京/city-tourist.md");
        GetPrompt (u "top_beijing_tourist_spots")
                  [(u "city_info", u "故宫、长城、颐和园")]]
       []).
Proof.
  exact (beijing_sights_query_is_augmented
           (Demo.client (Some Demo.provider) Demo.scripted)
           (session := Demo.provider) (Demo.start [])
           (city_info := u "故宫、长城、颐和园") (others := [])
           (w1 := []) (r := u "user")
           (prompt_text := top_beijing_tourist_spots (u "故宫、长城、颐和园"))
           (others' := []) (w2 := [])
           eq_refl eq_refl eq_refl).
Defined.

Example catalog_example :
  exists functions,
    tools_to_openai_functions
      (Demo.client (Some Demo.provider) Demo.scripted) (Demo.start [])
    = (Ret functions, mkState [] [ListTools] []) /\
    nth_error functions 1
    = Some (FunctionSchema.mk (u "function")
              (FunctionSchema.mkFn (u "get_current_time")
                                   (Some (u "查询当前时间的工具")) [])).
Proof.
  destruct (catalog_is_translated_in_order
              (Demo.client (Some Demo.provider) Demo.scripted)
              (session := Demo.provider) (Demo.start [])
              (tools := [Demo.weather_tool; Demo.time_tool]) (w := [])
              eq_refl eq_refl) as (functions & Hrun & _ & Hnth).
  exists functions. split; [exact Hrun |].
  exact (Hnth 1 Demo.time_tool eq_refl).
Defined.

Example final_answer_example :
  fst (process_query Demo.loads 0
         (Demo.client (Some Demo.provider) Demo.scripted)
         (u "你好") (Demo.start [Demo.says (u "你好！")]))
  = Ret (Some (u "你好！")).
Proof.
  edestruct (answer_without_tool_calls_is_final Demo.loads 0
               (Demo.client (Some Demo.provider) Demo.scripted)
               (u "你好") (Demo.start [Demo.says (u "你好！")])) as [H _].
  - vm_compute. reflexivity.
  - left. reflexivity.
  - rewrite H. reflexivity.
Defined.

Example failed_augmentation_example :
  exists evs,
    process_query Demo.loads 3
      (Demo.client (Some Demo.lost_provider) Demo.scripted)
      (u "北京旅游攻略") (Demo.start [Demo.says (u "好的")])
    = (Ret (Some (u "❌ 处理查询时出错: Connection closed")),
       mkState [Demo.says (u "好的")] evs []) /\
    count is_model_request evs = 0.
Proof.
  destruct (failed_augmentation_is_the_answer Demo.loads 3
              (Demo.client (Some Demo.lost_provider) Demo.scripted)
              (session := Demo.lost_provider) (query := u "北京旅游攻略")
              (Demo.start [Demo.says (u "好的")])
              (e := Demo.closed) (w := [Demo.says (u "好的")]) eq_refl)
    as (evs & Hrun & _ & Hcount & _).
  - apply rule_decision. vm_compute. reflexivity.
  - left. reflexivity.
  - exists evs. split; [exact Hrun | exact Hcount].
Defined.

(** C1 fails on the code. The model asks for two tool calls; the arguments
    text of the first is empty, which [json.loads] refuses, the second is
    in order. The query ends there with the error text: no
    [{role: tool}] message is appended for the failing call, the second
    call is never invoked, and the answer the backend still holds is never
    asked for. *)
Example failed_tool_call_is_not_recovered :
  let tool_calls := [Demo.time_call (u "call_1") (u "");
                     Demo.time_call (u "call_2") (u "{}")] in
  let r := process_query Demo.loads 5
             (Demo.client (Some Demo.provider) Demo.scripted)
             (u "现在几点")
             (Demo.start [Demo.asks tool_calls; Demo.says (u "八点。")]) in
  fst r = Ret (Some (u "❌ 处理查询时出错: Expecting value: line 1 column 1 (char 0)"))
  /\ messages (snd r)
     = [UserMessage (u "现在几点");
        AssistantDump (AssistantMessage.mk None (Some tool_calls))]
  /\ count is_tool_invocation (log (snd r)) = 0
  /\ count is_model_request (log (snd r)) = 1
  /\ world (snd r) = [Demo.says (u "八点。")].
Proof. vm_compute. repeat split; reflexivity. Qed.

Example failed_tool_call_example :
  let tool_calls := [Demo.time_call (u "call_1") (u "{}");
                     Demo.time_call (u "call_2") (u "");
                     Demo.time_call (u "call_3") (u "{}")] in
  exists st2,
    process_query Demo.loads 1
      (Demo.client (Some Demo.provider) Demo.scripted)
      (u "现在几点")
      (Demo.start [Demo.asks tool_calls; Demo.says (u "八点。")])
    = (Ret (Some (error_text Demo.parse_error)), st2) /\
    tool_messages (messages st2)
    = [ToolMessage (u "当前时间：2025-01-01 08:00:00。") (u "call_1")].
Proof.
  cbv zeta.
  eassert (at_turn Demo.loads
             (Demo.client (Some Demo.provider) Demo.scripted)
             (u "现在几点")
             (Demo.start
                [Demo.asks [Demo.time_call (u "call_1") (u "{}");
                            Demo.time_call (u "call_2") (u "");
                            Demo.time_call (u "call_3") (u "{}")];
                 Demo.says (u "八点。")])
             0 _ _ _) as Hat.
  { apply at_first_answer. vm_compute. reflexivity. }
  match type of Hat with
  | at_turn _ ?self _ _ _ _ _ ?st =>
      eassert (for_each (run_tool_call Demo.loads self)
                        [Demo.time_call (u "call_1") (u "{}")] st
               = (Ret tt, _)) as Hdone
  end.
  { vm_compute. reflexivity. }
  destruct (failed_tool_call_ends_the_query
              (fuel := 1)
              (self := Demo.client (Some Demo.provider) Demo.scripted)
              (session := Demo.provider)
              (tool_call := Demo.time_call (u "call_2") (u ""))
              (e := Demo.parse_error)
              [Demo.time_call (u "call_1") (u "{}")]
              [Demo.time_call (u "call_3") (u "{}")]
              eq_refl Hat eq_refl Hdone (or_introl eq_refl) (le_n 1))
    as (st2 & Hrun & Hms & _).
  exists st2. split; [exact Hrun |]. rewrite Hms. reflexivity.
Defined.

(** C2 fails on the code. The model asks for two tool calls, and the
    arguments text of the second is refused by [json.loads]: the turn ends
    with one [{role: tool}] message after an assistant message that
    carries two tool calls. *)
Example aborted_turn_answers_fewer_calls :
  let tool_calls := [Demo.time_call (u "call_1") (u "{}");
                     Demo.time_call (u "call_2") (u "")] in
  let r := process_query Demo.loads 5
             (Demo.client (Some Demo.provider) Demo.scripted)
             (u "现在几点")
             (Demo.start [Demo.asks tool_calls; Demo.says (u "八点。")]) in
  messages (snd r)
  = [UserMessage (u "现在几点");
     AssistantDump (AssistantMessage.mk None (Some tool_calls));
     ToolMessage (u "当前时间：2025-01-01 08:00:00。") (u "call_1")]
  /\ length (tool_messages (messages (snd r))) = 1
  /\ length tool_calls = 2.
Proof. vm_compute. repeat split; reflexivity. Qed.

Example tool_messages_example :
  let tool_calls := [Demo.time_call (u "call_1") (u "{}");
                     Demo.time_call (u "call_2") (u "{}")] in
  exists st st' tms,
    for_each (run_tool_call Demo.loads
                (Demo.client (Some Demo.provider) Demo.scripted))
             tool_calls st = (Ret tt, st') /\
    messages st' = messages st ++ tms /\
    length tms = 2 /\
    Forall2 answers tms tool_calls.
Proof.
  cbv zeta.
  eassert (at_turn Demo.loads
             (Demo.client (Some Demo.provider) Demo.scripted)
             (u "现在几点")
             (Demo.start
                [Demo.asks [Demo.time_call (u "call_1") (u "{}");
                            Demo.time_call (u "call_2") (u "{}")];
                 Demo.says (u "八点。")])
             0 _ _ _) as Hat.
  { apply at_first_answer. vm_compute. reflexivity. }
  destruct (tool_messages_answer_tool_calls Hat eq_refl) as [_ [H _]].
  match type of H with
  | match for_each ?body ?calls ?st with _ => _ end =>
      exists st; destruct (for_each body calls st) as [[[]|e|] st'] eqn:E
  end.
  - destruct H as (tms & Hms & Hlen & Hans). now exists st', tms.
  - vm_compute in E. discriminate E.
  - destruct H.
Defined.

(** C7 fails on the code. No document is stored for the city asked for;
    [city_tourist] returns a text all the same, the report of the failed
    read. *)
Example missing_document_is_returned_as_text :
  Demo.files (u "./resources/上海景点推荐.md")
  = inl (mkException
           (u "[Errno 2] No such file or directory: './resources/上海景点推荐.md'"))
  /\ contains (u "上海") (u "%") = false
  /\ city_tourist Demo.unquote_plain Demo.files (u "上海")
     = inr (u "读取文件 ./resources/上海景点推荐.md 失败: [Errno 2] No such file or directory: './resources/上海景点推荐.md'").
Proof. vm_compute. repeat split; reflexivity. Qed.

Example unreadable_document_example :
  city_tourist Demo.unquote_plain Demo.files (u "上海")
  = inr (u "读取文件 " ++ u "./resources/上海景点推荐.md" ++ u " 失败: "
         ++ u "[Errno 2] No such file or directory: './resources/上海景点推荐.md'").
Proof.
  assert (Demo.files
            (u "./resources/" ++ Demo.unquote_plain (u "上海")
             ++ u "景点推荐.md")
          = inl (mkException
                   (u "[Errno 2] No such file or directory: './resources/上海景点推荐.md'")))
    as Hopen by (vm_compute; reflexivity).
  rewrite (unreadable_document_is_reported_as_text _ _ _ Hopen).
  vm_compute. reflexivity.
Defined.




Example schemas_reused_example :
  let tools := map to_function [Demo.weather_tool; Demo.time_tool] in
  let r := process_query Demo.loads 1
             (Demo.client (Some Demo.provider) Demo.scripted)
             (u "北京有什么景点")
             (Demo.start [Demo.asks [Demo.time_call (u "call_1") (u "{}")];
                          Demo.says (u "故宫。")]) in
  count is_catalog_request (log (snd r)) = 1 /\
  count is_model_request (log (snd r)) = 2 /\
  Forall (fun sent => sent = tools) (schemas_sent (log (snd r))).
Proof.
  cbv zeta.
  eassert (select_prompt_and_enhanced_query
             (Demo.client (Some Demo.provider) Demo.scripted)
             (u "北京有什么景点")
             (Demo.start [Demo.asks [Demo.time_call (u "call_1") (u "{}")];
                          Demo.says (u "故宫。")])
           = (Ret _, _)) as Hsel.
  { vm_compute. reflexivity. }
  destruct (schemas_are_fetched_once_and_reused Demo.loads 1
              (Demo.client (Some Demo.provider) Demo.scripted) _ _
              (session := Demo.provider) eq_refl Hsel)
    as [(aug & rest & _ & _ & Hlog & Hcount & rest' & _ & Hsent) _].
  split; [| split].
  - rewrite Hlog. exact Hcount.
  - vm_compute. reflexivity.
  - rewrite Hlog. exact Hsent.
Defined.

(** * Further properties of the conversation *)

Section ConversationProperties.

Variable World : Type.
Variable json_loads : str -> Exception + JSON.

Implicit Types (self : MCPClient World) (st : State World) (query : str).

Lemma histories_sent_app evs evs' :
  histories_sent (evs ++ evs') = histories_sent evs ++ histories_sent evs'.
Proof. apply flat_map_app. Qed.

Lemma augmentation_sends_no_history aug :
  Forall (fun ev => is_augmentation_request ev = true) aug ->
  histories_sent aug = [].
Proof.
  induction 1 as [|ev aug Hev _ IH]; [reflexivity |].
  destruct ev; try discriminate; exact IH.
Qed.

Lemma turn_steps self tools tool_calls st m' st' :
  turn json_loads self tools tool_calls st = (Ret m', st') ->
  exists st1,
    for_each (run_tool_call json_loads self) tool_calls st = (Ret tt, st1) /\
    request_model self tools st1 = (Ret m', st').
Proof.
  unfold turn. rewrite bind_run.
  destruct (for_each _ tool_calls st) as [[[]|e|] st1]; try discriminate.
  intros H. now exists st1.
Qed.

Lemma run_tool_call_invokes self tool_call st st' :
  run_tool_call json_loads self tool_call st = (Ret tt, st') ->
  exists ev content,
    invokes json_loads ev tool_call /\
    log st' = log st ++ [ev] /\
    messages st' = messages st ++ [ToolMessage content (ToolCall.id tool_call)].
Proof.
  unfold run_tool_call, of_reply, session_attr, result_text, bind, ret, raise,
    remote, index0, content_text, append, invokes.
  destruct (json_loads _) as [e|arguments] eqn:Hparse; simpl; [discriminate |].
  destruct (mcp_session self) as [session|]; simpl; [| discriminate].
  destruct (call_tool session _ arguments (world st))
    as [[e|[[|[text|d m|res] others] isError|repr]] w]; simpl;
    try discriminate; intros H; injection H as <-; simpl;
    (eexists _, _; split;
     [exists arguments; split; reflexivity | split; reflexivity]).
Qed.

Lemma for_each_invokes self tool_calls st st' :
  for_each (run_tool_call json_loads self) tool_calls st = (Ret tt, st') ->
  exists evs tms,
    Forall2 (invokes json_loads) evs tool_calls /\
    Forall2 answers tms tool_calls /\
    log st' = log st ++ evs /\
    messages st' = messages st ++ tms.
Proof.
  revert st; induction tool_calls as [|c cs IH]; intros st; simpl.
  - intros H. injection H as <-. exists [], [].
    rewrite !app_nil_r. repeat split; constructor.
  - rewrite bind_run.
    destruct (run_tool_call json_loads self c st) as [[[]|e|] st1] eqn:Ec;
      try discriminate.
    intros Hcs.
    destruct (run_tool_call_invokes _ _ _ Ec) as (ev & content & Hev & Hlog & Hms).
    destruct (IH _ Hcs) as (evs & tms & Hevs & Hans & Hlog' & Hms').
    exists (ev :: evs), (ToolMessage content (ToolCall.id c) :: tms).
    rewrite Hlog', Hlog, Hms', Hms, <- !app_assoc.
    repeat split; auto.
    constructor; [now exists content | exact Hans].
Qed.

Lemma invocations_send_no_history evs tool_calls :
  Forall2 (invokes json_loads) evs tool_calls ->
  histories_sent evs = [] /\ filter is_tool_invocation evs = evs.
Proof.
  induction 1 as [|ev c evs cs (arguments & _ & ->) _ [IHh IHf]];
    [split; reflexivity |].
  simpl. now rewrite IHf.
Qed.

Lemma answers_ask_nothing tms tool_calls :
  Forall2 answers tms tool_calls -> asked tms = [].
Proof.
  induction 1 as [|m c tms cs [content ->] _ IH]; [reflexivity | exact IH].
Qed.

(** X1. At every point of every conversation the message list is the user
    message, then one block per finished pass (the answer of the model
    followed by the messages that answer its tool calls one for one), then
    the latest answer. The model requests sent so far carried, in turn,
    the user message alone, then it with the first block, then with the
    first two, and so on: each request repeats the one before and adds one
    whole block, and none was sent with a tool call left unanswered. *)
Theorem conversation_grows_by_whole_blocks
    self query st0 n tools m st :
  at_turn json_loads self query st0 n tools m st ->
  exists enhanced_query passes evs,
    length passes = n /\
    Forall answered passes /\
    messages st
    = UserMessage enhanced_query :: flat_map block passes
      ++ [AssistantDump m] /\
    log st = log st0 ++ evs /\
    histories_sent evs
    = map (fun k => UserMessage enhanced_query
                    :: flat_map block (firstn k passes))
          (seq 0 (S n)).
Proof.
  induction 1 as [tools m st Hfirst
                 | n tools m st c cs m' st' _ IH Hcalls Hturn].
  - pose proof (first_request_effects self query st0) as H.
    rewrite Hfirst in H.
    destruct H as (eq & _ & _ & aug & _ & _ & Haug & Hlog & Hms).
    exists eq, [], (aug ++ [ListTools;
                            ChatCreate (model self) [UserMessage eq] tools]).
    repeat split; auto.
    rewrite histories_sent_app, (augmentation_sends_no_history Haug).
    reflexivity.
  - destruct IH as (eq & passes & evs & Hlen & Hpasses & Hms & Hlog & Hsent).
    destruct (turn_steps _ _ _ _ Hturn) as (st1 & Hfor & Hreq).
    destruct (for_each_invokes _ _ _ Hfor) as (evs' & tms & Hevs & Hans
                                               & Hlog1 & Hms1).
    pose proof (request_model_effects self tools st1) as Hr.
    rewrite Hreq in Hr. destruct Hr as [Hlog' Hms'].
    exists eq, (passes ++ [(m, tms)]),
           (evs ++ evs' ++ [ChatCreate (model self) (messages st1) tools]).
    split; [rewrite length_app; simpl; lia |].
    split.
    { apply Forall_app. split; [exact Hpasses |].
      constructor; [| constructor].
      exists (c :: cs). repeat split; auto. discriminate. }
    split.
    { rewrite Hms', Hms1, Hms, flat_map_app. simpl.
      now rewrite app_nil_r, <- !app_assoc. }
    split; [now rewrite Hlog', Hlog1, Hlog, <- !app_assoc |].
    rewrite !histories_sent_app, Hsent.
    rewrite (proj1 (invocations_send_no_history Hevs)).
    rewrite (seq_S (S n) 0), map_app.
    change (histories_sent [ChatCreate (model self) (messages st1) tools])
      with [messages st1].
    cbn [app map Nat.add]. f_equal.
    + apply map_ext_in. intros k Hk. apply in_seq in Hk.
      rewrite firstn_app.
      replace (k - length passes) with 0 by lia.
      simpl. now rewrite app_nil_r.
    + rewrite firstn_all2 by (rewrite length_app; simpl; lia).
      rewrite Hms1, Hms, flat_map_app. simpl.
      now rewrite app_nil_r, <- !app_assoc.
Qed.

Lemma tool_invocation_filter_app (evs evs' : list Event) :
  filter is_tool_invocation (evs ++ evs')
  = filter is_tool_invocation evs ++ filter is_tool_invocation evs'.
Proof. apply filter_app. Qed.

Lemma augmentation_invokes_no_tool aug :
  Forall (fun ev => is_augmentation_request ev = true) aug ->
  filter is_tool_invocation aug = [].
Proof.
  induction 1 as [|ev aug Hev _ IH]; [reflexivity |].
  destruct ev; try discriminate; exact IH.
Qed.

Lemma asked_app ms ms' : asked (ms ++ ms') = asked ms ++ asked ms'.
Proof. apply flat_map_app. Qed.

(** X2. At every point of every conversation, the tool invocations sent so
    far are, in order and one for one, the tool calls carried by the
    answers before the latest one: each was invoked once, under its own
    name, with what [json.loads] made of its arguments text, and no tool
    was invoked that the model did not ask for. *)
Theorem tools_are_invoked_as_asked self query st0 n tools m st :
  at_turn json_loads self query st0 n tools m st ->
  exists evs,
    log st = log st0 ++ evs /\
    Forall2 (invokes json_loads)
            (filter is_tool_invocation evs)
            (asked (removelast (messages st))).
Proof.
  induction 1 as [tools m st Hfirst
                 | n tools m st c cs m' st' Hat IH Hcalls Hturn].
  - pose proof (first_request_effects self query st0) as H.
    rewrite Hfirst in H.
    destruct H as (eq & _ & _ & aug & _ & _ & Haug & Hlog & Hms).
    exists (aug ++ [ListTools;
                    ChatCreate (model self) [UserMessage eq] tools]).
    split; [exact Hlog |].
    rewrite tool_invocation_filter_app, (augmentation_invokes_no_tool Haug).
    rewrite Hms. simpl. constructor.
  - destruct IH as (evs & Hlog & Hinv).
    destruct (at_turn_last_message Hat) as [history Hms].
    rewrite Hms, removelast_last in Hinv.
    destruct (turn_steps _ _ _ _ Hturn) as (st1 & Hfor & Hreq).
    destruct (for_each_invokes _ _ _ Hfor) as (evs' & tms & Hevs & Hans
                                                 & Hlog1 & Hms1).
    pose proof (request_model_effects self tools st1) as Hr.
    rewrite Hreq in Hr. destruct Hr as [Hlog' Hms'].
    exists (evs ++ evs' ++ [ChatCreate (model self) (messages st1) tools]).
    split; [now rewrite Hlog', Hlog1, Hlog, <- !app_assoc |].
    rewrite Hms', removelast_last, Hms1, Hms.
    rewrite !tool_invocation_filter_app, !asked_app.
    rewrite (proj2 (invocations_send_no_history Hevs)).
    rewrite (answers_ask_nothing Hans). simpl. rewrite Hcalls, !app_nil_r.
    apply Forall2_app; assumption.
Qed.

End ConversationProperties.

(** * Failures, where they end a query and where they do not *)

Section FailureProperties.

Variable World : Type.
Variable json_loads : str -> Exception + JSON.

Implicit Types (self : MCPClient World) (st : State World) (query : str).

Lemma raising_turn_ends_the_query
    fuel self session query st0 n tools m st c cs e st2 :
  mcp_session self = Some session ->
  at_turn json_loads self query st0 n tools m st ->
  AssistantMessage.tool_calls m = Some (c :: cs) ->
  turn json_loads self tools (c :: cs) st = (Raise e, st2) ->
  n < fuel ->
  process_query json_loads fuel self query st0
  = (Ret (Some (error_text e)), st2).
Proof.
  intros Hs Hat Hcalls Hturn Hfuel.
  rewrite (process_query_connected json_loads fuel _ _ _ Hs).
  replace fuel with (n + S (fuel - S n)) by lia.
  rewrite (at_turn_resumes Hat), bind_run. simpl. rewrite Hcalls.
  now rewrite bind_run, Hturn.
Qed.

(** X3. A failure that the provider reports inside its result does not
    end the turn. When the calls before [tool_call] have run and the
    invocation of [tool_call] returns a result whose first block is a
    text, the loop goes on with the calls after it, having appended that
    text as the [{role: tool}] message of [tool_call]; the error flag of
    the result and its further blocks change nothing. *)
Theorem reported_tool_error_is_passed_on
    self session done tool_call rest st st1 arguments text others is_error w :
  mcp_session self = Some session ->
  for_each (run_tool_call json_loads self) done st = (Ret tt, st1) ->
  json_loads (ToolCall.arguments (ToolCall.function tool_call))
    = inr arguments ->
  call_tool session (ToolCall.name (ToolCall.function tool_call)) arguments
            (world st1)
    = (inr (ToolReturn.CallToolResult (Content.TextContent text :: others)
                                      is_error), w) ->
  for_each (run_tool_call json_loads self) (done ++ tool_call :: rest) st
  = for_each (run_tool_call json_loads self) rest
      (mkState w
         (log st1 ++ [CallTool (ToolCall.name (ToolCall.function tool_call))
                               arguments])
         (messages st1 ++ [ToolMessage text (ToolCall.id tool_call)])).
Proof.
  intros Hs Hdone Hparse Hcall.
  rewrite for_each_app, Hdone. simpl. rewrite bind_run.
  unfold run_tool_call, of_reply, session_attr. rewrite Hparse, Hs.
  unfold bind, ret, remote. simpl. rewrite Hcall. reflexivity.
Qed.

(** X4. A tool result without a readable first block ends the query. In
    any turn, when the calls before [tool_call] have run and its
    invocation returns a result whose content is empty, or starts with a
    block that is not a text, [process_query] returns the error text of
    the [IndexError] or [AttributeError]. The invocation has been made and
    the world is the one it left, but no message is kept for it, the calls
    after it are not run and the model is not asked again. *)
Theorem unreadable_tool_result_ends_the_query
    fuel self session query st0 n tools m st done tool_call rest st1
    arguments content is_error w e :
  mcp_session self = Some session ->
  at_turn json_loads self query st0 n tools m st ->
  AssistantMessage.tool_calls m = Some (done ++ tool_call :: rest) ->
  for_each (run_tool_call json_loads self) done st = (Ret tt, st1) ->
  json_loads (ToolCall.arguments (ToolCall.function tool_call))
    = inr arguments ->
  call_tool session (ToolCall.name (ToolCall.function tool_call)) arguments
            (world st1)
    = (inr (ToolReturn.CallToolResult content is_error), w) ->
  first_text_missing content e ->
  n < fuel ->
  process_query json_loads fuel self query st0
  = (Ret (Some (error_text e)),
     mkState w
       (log st1 ++ [CallTool (ToolCall.name (ToolCall.function tool_call))
                             arguments])
       (messages st1)).
Proof.
  intros Hs Hat Hcalls Hdone Hparse Hcall Hmissing Hfuel.
  destruct (done ++ tool_call :: rest) as [|c cs] eqn:Hshape;
    [now destruct done |].
  apply (raising_turn_ends_the_query Hs Hat Hcalls); [| exact Hfuel].
  rewrite <- Hshape. unfold turn. rewrite bind_run, for_each_app, Hdone.
  simpl. rewrite bind_run.
  unfold run_tool_call, of_reply, session_attr. rewrite Hparse, Hs.
  unfold bind, ret, remote. simpl. rewrite Hcall. simpl.
  destruct Hmissing as [[-> ->] | (first & others & -> & Hfirst & ->)];
    [reflexivity |].
  destruct first as [text|d mt|res]; [now destruct (Hfirst text) | |];
    reflexivity.
Qed.

(** X5. A model request that fails after tool calls ends the query. In any
    turn whose tool calls have all run, when the backend raises on the
    request that follows, or answers without a choice, [process_query]
    returns that error's text. The messages are left as the tool calls
    made them, and nothing of the tool results is returned. *)
Theorem failed_follow_up_request_ends_the_query
    fuel self session query st0 n tools m st c cs st1 reply w e :
  mcp_session self = Some session ->
  at_turn json_loads self query st0 n tools m st ->
  AssistantMessage.tool_calls m = Some (c :: cs) ->
  for_each (run_tool_call json_loads self) (c :: cs) st = (Ret tt, st1) ->
  create (ai_client self) (model self) (messages st1) tools (world st1)
    = (reply, w) ->
  no_answer reply e ->
  n < fuel ->
  process_query json_loads fuel self query st0
  = (Ret (Some (error_text e)),
     mkState w
       (log st1 ++ [ChatCreate (model self) (messages st1) tools])
       (messages st1)).
Proof.
  intros Hs Hat Hcalls Hfor Hcreate Hno Hfuel.
  apply (raising_turn_ends_the_query Hs Hat Hcalls); [| exact Hfuel].
  unfold turn. rewrite bind_run, Hfor.
  unfold request_model, read_messages, bind, ret, remote. simpl.
  rewrite Hcreate.
  destruct Hno as [-> | [-> ->]]; reflexivity.
Qed.

(** X6. The first model request failing ends the query the same way: when
    the augmentation and the catalog went through and the backend raises
    on the first request, or answers without a choice, [process_query]
    returns that error's text; the request is the last thing sent. *)
Theorem failed_first_request_ends_the_query
    fuel self session query st enhanced_query st1 tools st2 reply w e :
  mcp_session self = Some session ->
  select_prompt_and_enhanced_query self query st = (Ret enhanced_query, st1) ->
  tools_to_openai_functions self st1 = (Ret tools, st2) ->
  create (ai_client self) (model self) [UserMessage enhanced_query] tools
         (world st2) = (reply, w) ->
  no_answer reply e ->
  process_query json_loads fuel self query st
  = (Ret (Some (error_text e)),
     mkState w
       (log st2
        ++ [ChatCreate (model self) [UserMessage enhanced_query] tools])
       [UserMessage enhanced_query]).
Proof.
  intros Hs Hsel Htools Hcreate Hno.
  rewrite (process_query_connected json_loads fuel _ _ _ Hs).
  unfold process_query_try, first_request.
  rewrite !bind_run, Hsel, bind_run, Htools.
  unfold assign_messages, request_model, read_messages, bind, ret, remote.
  simpl. rewrite Hcreate.
  destruct Hno as [-> | [-> ->]]; reflexivity.
Qed.

End FailureProperties.

(** * Augmentation and the provider *)

Section AugmentationProperties.

Variable World : Type.
Variable json_loads : str -> Exception + JSON.

Implicit Types (self : MCPClient World) (st : State World) (query : str).

(** X7. A resource that comes back without a readable first content ends
    the query before any prompt is asked for. For a query that matches
    the rule, when the resource read returns no contents, or a blob first,
    [process_query] returns the error text of the [IndexError] or
    [AttributeError]; the read is the only request sent. *)
Theorem unreadable_resource_ends_the_query
    fuel self session query st contents w e :
  mcp_session self = Some session ->
  matches_rule query ->
  read_resource session (u "city-tourist-doc://北京/city-tourist.md") (world st)
    = (inr contents, w) ->
  resource_text_missing contents e ->
  process_query json_loads fuel self query st
  = (Ret (Some (error_text e)),
     mkState w
       (log st ++ [ReadResource (u "city-tourist-doc://北京/city-tourist.md")])
       (messages st)).
Proof.
  intros Hs Hrule Hread Hmissing.
  rewrite (process_query_connected json_loads fuel _ _ _ Hs).
  unfold process_query_try, first_request. rewrite !bind_run.
  apply rule_decision in Hrule.
  unfold select_prompt_and_enhanced_query. rewrite Hrule. simpl negb.
  cbv iota. unfold session_attr. rewrite Hs.
  unfold bind, ret, remote. simpl. rewrite Hread.
  destruct Hmissing as [[-> ->] | (blob & others & -> & ->)]; reflexivity.
Qed.

(** X8. Augmentation never drops or alters the user's text: whenever
    [select_prompt_and_enhanced_query] returns, what it returns ends with
    the query as it was given, and text is put before it exactly when the
    query matches the rule. *)
Theorem augmentation_keeps_the_query self query st :
  match fst (select_prompt_and_enhanced_query self query st) with
  | Ret enhanced_query =>
      exists added,
        enhanced_query = added ++ query /\
        (added <> [] <-> matches_rule query)
  | _ => True
  end.
Proof.
  unfold select_prompt_and_enhanced_query.
  destruct (any_in query [u "北京"] && any_in query [u "景点"; u "旅游"])
    eqn:Hrule; simpl negb; cbv iota.
  2:{ simpl. exists []. split; [reflexivity |]. split; [easy |].
      intros H. apply rule_decision in H. congruence. }
  apply rule_decision in Hrule.
  unfold session_attr, bind, ret, raise, remote, index0, resource_text,
    content_text.
  destruct (mcp_session self) as [session|]; simpl; [| exact I].
  destruct (read_resource session _ (world st)) as [[e|[|[text|blob] others]] w1];
    simpl; try exact I.
  destruct (get_prompt session _ _ w1)
    as [[e|[|[r [text'|d m|res]] others']] w2]; simpl; try exact I.
  exists (text' ++ NL ++ NL ++ u "用户问题:" ++ NL ++ NL).
  split; [now rewrite <- !app_assoc |].
  split; [intros _; exact Hrule | intros _ H].
  apply (f_equal (@length N)) in H. rewrite !length_app in H.
  simpl in H. lia.
Qed.

End AugmentationProperties.

Section ProviderProperties.

Variable World : Type.
Variable unquote : str -> str.
Variable open_read : str -> Exception + str.

(** X9. A city document that cannot be read does not stop the query: its
    failure report reaches the prompt as if it were the city's text. Let
    the session hand on what the handlers of the provider return: the
    text of [city_tourist] for some city as the resource, and
    [top_beijing_tourist_spots] of its argument as the prompt. When the
    document of that city cannot be opened, a matching query is enhanced
    with the template text around the report of the failed read, and
    nothing is raised. *)
Theorem unread_document_reaches_the_prompt
    (self : MCPClient World) session query st city text e w1 r w2 :
  mcp_session self = Some session ->
  matches_rule query ->
  open_read (u "./resources/" ++ unquote city ++ u "景点推荐.md") = inl e ->
  city_tourist unquote open_read city = inr text ->
  read_resource session (u "city-tourist-doc://北京/city-tourist.md") (world st)
    = (inr [ResourceContents.TextResourceContents text], w1) ->
  get_prompt session (u "top_beijing_tourist_spots") [(u "city_info", text)] w1
    = (inr [PromptMessage.mk r
              (Content.TextContent (top_beijing_tourist_spots text))], w2) ->
  fst (select_prompt_and_enhanced_query self query st)
  = Ret (u "你是旅游博主，非常了解北京文化，按以下内容进行推荐" ++ NL ++ NL
         ++ (u "读取文件 "
             ++ (u "./resources/" ++ unquote city ++ u "景点推荐.md")
             ++ u " 失败: " ++ str_of e)
         ++ NL ++ NL ++ u "用户问题:" ++ NL ++ NL ++ query).
Proof.
  intros Hs Hrule Hopen Hcity Hread Hprompt.
  rewrite (matched_query_is_augmented _ _ Hrule Hs Hread Hprompt).
  cbn [fst].
  assert (text = u "读取文件 "
                 ++ (u "./resources/" ++ unquote city ++ u "景点推荐.md")
                 ++ u " 失败: " ++ str_of e) as ->.
  { unfold city_tourist, _read_file_content in Hcity.
    rewrite Hopen in Hcity. congruence. }
  unfold top_beijing_tourist_spots. now rewrite <- !app_assoc.
Qed.

End ProviderProperties.

Section RequestProperties.

Variable World : Type.
Variable json_loads : str -> Exception + JSON.

Implicit Types (self : MCPClient World) (st : State World) (query : str).

Lemma select_requests self query st :
  exists aug,
    log (snd (select_prompt_and_enhanced_query self query st)) = log st ++ aug /\
    (aug = [] \/
     matches_rule query /\
     (aug = [ReadResource (u "city-tourist-doc://北京/city-tourist.md")] \/
      exists city_info,
        aug = [ReadResource (u "city-tourist-doc://北京/city-tourist.md");
               GetPrompt (u "top_beijing_tourist_spots")
                         [(u "city_info", city_info)]])).
Proof.
  unfold select_prompt_and_enhanced_query.
  destruct (any_in query [u "北京"] && any_in query [u "景点"; u "旅游"])
    eqn:Hrule; simpl negb; cbv iota.
  2:{ exists []. simpl. rewrite app_nil_r. auto. }
  apply rule_decision in Hrule.
  unfold session_attr, bind, ret, raise, remote, index0, resource_text,
    content_text.
  destruct (mcp_session self) as [session|]; simpl;
    [| exists []; rewrite app_nil_r; auto].
  destruct (read_resource session _ (world st)) as [[e|[|[text|blob] others]] w1];
    simpl; try (eexists [_]; split; [reflexivity | right; split; auto]).
  destruct (get_prompt session _ _ w1)
    as [[e|[|[r [text'|d m|res]] others']] w2]; simpl; rewrite <- app_assoc;
    (eexists [_; _]; split; [reflexivity | right; split; eauto]).
Qed.

Lemma loop_events_are_no_augmentation self tools evs :
  Forall (loop_event self tools) evs ->
  Forall (fun ev => is_augmentation_request ev = false) evs.
Proof.
  apply Forall_impl. intros [] H; simpl in *; try contradiction; reflexivity.
Qed.

(** X12. Whatever the query and the answers of the model, one invocation
    of [process_query] reads no resource but the Beijing document and asks
    for no prompt but [top_beijing_tourist_spots] (never
    [top_beijing_fine_food]), each at most once, the read first, and only
    for a query that matches the rule. These requests come first: none is
    sent once the catalog has been asked for. *)
Theorem one_resource_and_one_prompt_at_most fuel self query st :
  exists aug others,
    log (snd (process_query json_loads fuel self query st))
    = log st ++ aug ++ others /\
    Forall (fun ev => is_augmentation_request ev = false) others /\
    (aug = [] \/
     matches_rule query /\
     (aug = [ReadResource (u "city-tourist-doc://北京/city-tourist.md")] \/
      exists city_info,
        aug = [ReadResource (u "city-tourist-doc://北京/city-tourist.md");
               GetPrompt (u "top_beijing_tourist_spots")
                         [(u "city_info", city_info)]])).
Proof.
  destruct (mcp_session self) as [session|] eqn:Hs.
  2:{ exists [], []. unfold process_query. rewrite Hs. simpl.
      rewrite app_nil_r. auto. }
  rewrite (process_query_state json_loads fuel _ _ _ Hs).
  destruct (select_requests self query st) as (aug & Hlog & Hshape).
  exists aug.
  unfold process_query_try, first_request. rewrite !bind_run.
  destruct (select_prompt_and_enhanced_query self query st)
    as [[enhanced_query|e|] st1]; cbn [snd fst] in *;
    [| exists []; rewrite app_nil_r; auto
     | exists []; rewrite app_nil_r; auto].
  rewrite bind_run.
  pose proof (tools_effects self st1) as Ht.
  destruct (tools_to_openai_functions self st1) as [[tools|e|] st2];
    [| | destruct Ht].
  2:{ destruct Ht as [_ [Ht | Ht]]; cbn [snd]; rewrite Ht, Hlog.
      - exists []. rewrite app_nil_r. auto.
      - exists [ListTools]. rewrite <- app_assoc. repeat split; auto. }
  destruct Ht as (session' & ts & w & _ & _ & _ & ->).
  unfold assign_messages. rewrite !bind_run. cbn [world log messages].
  match goal with |- context [request_model self tools ?s] =>
    pose proof (request_model_effects self tools s) as Hr;
    destruct (request_model self tools s) as [[m|e|] st3]
  end; cbn [log messages] in Hr; [| | destruct Hr].
  - destruct Hr as [Hlog' _]. unfold ret at 1. cbn [fst snd].
    destruct (while_effects json_loads fuel self tools m st3)
      as (rest & Hlog'' & Hrest).
    cbv zeta in Hlog''.
    exists ([ListTools;
             ChatCreate (model self) [UserMessage enhanced_query] tools]
            ++ rest).
    split; [| split; [| exact Hshape]].
    + rewrite bind_run.
      destruct (while_tool_calls json_loads fuel self tools m st3)
        as [[m'|e|] st4]; unfold ret; cbn [snd] in *;
        rewrite Hlog'', Hlog', Hlog, <- !app_assoc; reflexivity.
    + apply Forall_app. split; [repeat constructor |].
      exact (loop_events_are_no_augmentation Hrest).
  - destruct Hr as [Hlog' _]. cbn [snd].
    exists [ListTools;
            ChatCreate (model self) [UserMessage enhanced_query] tools].
    rewrite Hlog', Hlog, <- !app_assoc.
    repeat split; auto.
Qed.

End RequestProperties.

(** * The chat loop *)

Section ChatLoopProperties.

Variable World : Type.
Variable json_loads : str -> Exception + JSON.
Variable strip : str -> str.
Variable lower : str -> str.

Implicit Types (self : MCPClient World) (st : State World).

Lemma startswith_app (prefix rest : str) :
  startswith (prefix ++ rest) prefix = true.
Proof. apply startswith_prefix. now exists rest. Qed.

Lemma reply_line_is_a_reply response :
  startswith (reply_line response) (NL ++ u "  回复: ") = true.
Proof.
  unfold reply_line. rewrite <- !app_assoc.
  apply startswith_prefix. eexists. rewrite <- !app_assoc. reflexivity.
Qed.

Lemma replies_written_app written written' :
  replies_written (written ++ written')
  = replies_written written ++ replies_written written'.
Proof. apply filter_app. Qed.

Lemma error_line_is_no_reply e :
  startswith ((NL ++ u "⚠️ 发生错误: " ++ str_of e) ++ NL)
             (NL ++ u "  回复: ") = false.
Proof. vm_compute. reflexivity. Qed.

Lemma process_query_never_raises fuel self query st e st' :
  process_query json_loads fuel self query st <> (Raise e, st').
Proof.
  unfold process_query, try_except.
  destruct (mcp_session self); [| discriminate].
  now destruct (process_query_try json_loads fuel self query st)
    as [[r|e'|] st''].
Qed.

Lemma replies_of_a_query_pass response :
  replies_written
    [NL ++ u ">>>: ";
     (NL ++ u "  处理中...") ++ NL;
     (NL ++ u "  回复: " ++ format_response response) ++ NL]
  = [reply_line response].
Proof.
  unfold replies_written. cbn [filter].
  change (startswith (NL ++ u ">>>: ") (NL ++ u "  回复: ")) with false.
  change (startswith ((NL ++ u "  处理中...") ++ NL) (NL ++ u "  回复: "))
    with false.
  cbv iota.
  change ((NL ++ u "  回复: " ++ format_response response) ++ NL)
    with (reply_line response).
  now rewrite reply_line_is_a_reply.
Qed.

Lemma replies_of_a_failed_read e :
  replies_written
    [NL ++ u ">>>: "; (NL ++ u "⚠️ 发生错误: " ++ str_of e) ++ NL]
  = [].
Proof.
  unfold replies_written. cbn [filter].
  change (startswith (NL ++ u ">>>: ") (NL ++ u "  回复: ")) with false.
  cbv iota. now rewrite error_line_is_no_reply.
Qed.

(** What one key that does not end the loop makes of the chat. *)
Lemma pass_goes_on query_fuel self st key keys out :
  ends_loop strip lower key = false ->
  let c := mkChat st (mkTerminal (key :: keys) out) in
  match map_each (process_query json_loads query_fuel self)
                 (queries_of strip [key]) st with
  | (Ret replies, st') =>
      exists written,
        pass json_loads strip lower query_fuel self c
        = (Again, mkChat st' (mkTerminal keys (out ++ written))) /\
        replies_written written = map reply_line replies
  | (OutOfFuel, _) =>
      fst (pass json_loads strip lower query_fuel self c) = Stuck
  | (Raise _, _) => False
  end.
Proof.
  intros Hkey. cbv zeta. unfold pass, attempt, input. simpl.
  destruct key as [text|e|]; simpl in *; [| | discriminate].
  - unfold is_exit in Hkey.
    destruct (eqb_str (strip text) []) eqn:Hblank; simpl in *.
    + exists [NL ++ u ">>>: "]. split; [reflexivity |].
      vm_compute. reflexivity.
    + rewrite Hkey. rewrite !bind_run.
      destruct (process_query json_loads query_fuel self (strip text) st)
        as [[response|e|] st'] eqn:Hrun; simpl.
      * exists [NL ++ u ">>>: ";
                (NL ++ u "  处理中...") ++ NL;
                (NL ++ u "  回复: " ++ format_response response) ++ NL].
        split; [unfold print; simpl; rewrite <- !app_assoc; reflexivity |].
        apply replies_of_a_query_pass.
      * now apply process_query_never_raises in Hrun.
      * reflexivity.
  - exists [NL ++ u ">>>: "; (NL ++ u "⚠️ 发生错误: " ++ str_of e) ++ NL].
    split; [unfold print; simpl; rewrite <- !app_assoc; reflexivity |].
    apply replies_of_a_failed_read.
Qed.

Lemma map_each_app {A B} (f : A -> Run World B) (xs ys : list A) st :
  map_each f (xs ++ ys) st =
  match map_each f xs st with
  | (Ret rs, st1) =>
      match map_each f ys st1 with
      | (Ret rs', st2) => (Ret (rs ++ rs'), st2)
      | (Raise e, st2) => (Raise e, st2)
      | (OutOfFuel, st2) => (OutOfFuel, st2)
      end
  | (Raise e, st1) => (Raise e, st1)
  | (OutOfFuel, st1) => (OutOfFuel, st1)
  end.
Proof.
  revert st; induction xs as [|x xs IH]; intros st; simpl.
  - unfold ret. now destruct (map_each f ys st) as [[rs|e|] st2].
  - unfold bind, ret. destruct (f x st) as [[y|e|] st1]; try reflexivity.
    rewrite IH.
    destruct (map_each f xs st1) as [[rs|e|] st2]; try reflexivity.
    now destruct (map_each f ys st2) as [[rs'|e|] st3].
Qed.

Lemma queries_of_cons key keys :
  queries_of strip (key :: keys) = queries_of strip [key] ++ queries_of strip keys.
Proof. unfold queries_of. simpl. now rewrite app_nil_r. Qed.

Lemma passes_answer_until_stopped query_fuel self keys stop rest :
  Forall (fun key => ends_loop strip lower key = false) keys ->
  ends_loop strip lower stop = true ->
  forall fuel st out replies st',
    map_each (process_query json_loads query_fuel self)
             (queries_of strip keys) st = (Ret replies, st') ->
    length keys < fuel ->
    exists written,
      passes json_loads strip lower fuel query_fuel self
             (mkChat st (mkTerminal (keys ++ stop :: rest) out))
      = (Ret tt, mkChat st' (mkTerminal rest (out ++ written))) /\
      replies_written written = map reply_line replies.
Proof.
  intros Hkeys Hstop.
  induction Hkeys as [|key keys Hkey _ IH]; intros fuel st out replies st'
                                                   Hall Hfuel.
  - injection Hall as <- <-.
    destruct fuel as [|fuel]; [inversion Hfuel |]. simpl.
    unfold pass, attempt, input. simpl.
    destruct stop as [text|e|]; simpl in Hstop; [| discriminate |].
    + unfold is_exit in Hstop. apply andb_true_iff in Hstop.
      destruct Hstop as [Hblank Hquit]. apply negb_true_iff in Hblank.
      rewrite Hblank, Hquit.
      exists [NL ++ u ">>>: "]. split; [reflexivity |].
      vm_compute. reflexivity.
    + exists [NL ++ u ">>>: "; (NL ++ NL ++ u "  已终止会话") ++ NL].
      split; [unfold print; simpl; rewrite <- !app_assoc; reflexivity |].
      vm_compute. reflexivity.
  - rewrite queries_of_cons, map_each_app in Hall.
    pose proof (@pass_goes_on query_fuel self st key (keys ++ stop :: rest)
                              out Hkey) as Hpass.
    cbv zeta in Hpass.
    destruct (map_each _ (queries_of strip [key]) st) as [[rs|e|] st1];
      [| contradiction | discriminate].
    destruct Hpass as (written & Hpass & Hreplies).
    destruct (map_each _ (queries_of strip keys) st1) as [[rs'|e|] st2] eqn:Hrest;
      try discriminate.
    injection Hall as <- <-.
    destruct fuel as [|fuel]; [inversion Hfuel |].
    simpl in Hfuel.
    destruct (IH fuel st1 (out ++ written) rs' st2 Hrest ltac:(lia))
      as (written' & Hrun & Hreplies').
    exists (written ++ written'). split.
    + cbn [passes app]. rewrite Hpass, Hrun. now rewrite <- app_assoc.
    + now rewrite replies_written_app, Hreplies, Hreplies', map_app.
Qed.

(** X10. The chat loop answers every query typed before it is stopped, in
    order, and reads nothing after. Let the keys before [stop] hold no
    exit command and no interrupt, and let [stop] be the exit command (a
    line that, stripped, is not empty and in lower case is "/q") or an
    interrupt. If [process_query], run on the stripped non-empty lines in
    turn, returns [replies], then [chat_loop] returns within one pass per
    key: the runs are left as those calls left them, the replies written
    are those replies, one line each and in order, and what follows
    [stop] on standard input is still unread. Empty lines and failed reads
    cost a pass and reach neither the session nor the backend. *)
Theorem chat_loop_answers_until_stopped
    fuel query_fuel self keys stop rest st out replies st' :
  Forall (fun key => ends_loop strip lower key = false) keys ->
  ends_loop strip lower stop = true ->
  map_each (process_query json_loads query_fuel self)
           (queries_of strip keys) st = (Ret replies, st') ->
  length keys < fuel ->
  exists written,
    chat_loop json_loads strip lower fuel query_fuel self
              (mkChat st (mkTerminal (keys ++ stop :: rest) out))
    = (Ret tt, mkChat st' (mkTerminal rest (out ++ written))) /\
    replies_written written = map reply_line replies.
Proof.
  intros Hkeys Hstop Hall Hfuel. unfold chat_loop, print.
  cbn [run terminal stdin stdout].
  destruct (@passes_answer_until_stopped query_fuel self keys stop rest
              Hkeys Hstop fuel st
              (out ++ [(NL ++ u "  开始对话: 输入'/q'退出") ++ NL])
              replies st' Hall Hfuel) as (written & Hrun & Hreplies).
  exists (((NL ++ u "  开始对话: 输入'/q'退出") ++ NL) :: written).
  split.
  - rewrite Hrun. now rewrite <- app_assoc.
  - rewrite <- Hreplies. unfold replies_written at 1. cbn [filter].
    change (startswith ((NL ++ u "  开始对话: 输入'/q'退出") ++ NL)
                       (NL ++ u "  回复: ")) with false.
    reflexivity.
Qed.

Lemma passes_never_end_unasked query_fuel self fuel :
  forall keys st out,
    Forall (fun key => ends_loop strip lower key = false) keys ->
    fst (passes json_loads strip lower fuel query_fuel self
                (mkChat st (mkTerminal keys out))) = OutOfFuel.
Proof.
  induction fuel as [|fuel IH]; intros keys st out Hkeys; [reflexivity |].
  cbn [passes].
  destruct Hkeys as [|key keys Hkey Hkeys].
  - unfold pass, attempt, input, print. simpl. apply IH. constructor.
  - pose proof (@pass_goes_on query_fuel self st key keys out Hkey) as Hpass.
    cbv zeta in Hpass.
    destruct (map_each _ (queries_of strip [key]) st) as [[rs|e|] st1];
      [| contradiction |].
    + destruct Hpass as (written & -> & _). now apply IH.
    + destruct (pass _ _ _ _ _ _) as [[| |] c']; simpl in Hpass;
        try discriminate. reflexivity.
Qed.

(** X11. Nothing but the exit command or an interrupt ends the chat loop.
    When the keys on standard input hold neither, [chat_loop] does not
    return, whatever the bound on its passes: once the input is used up
    every read raises [EOFError], which the loop reports and survives,
    pass after pass. *)
Theorem chat_loop_only_ends_when_told
    fuel query_fuel self keys st out :
  Forall (fun key => ends_loop strip lower key = false) keys ->
  fst (chat_loop json_loads strip lower fuel query_fuel self
                 (mkChat st (mkTerminal keys out))) = OutOfFuel.
Proof.
  intros Hkeys. unfold chat_loop, print. cbn [run terminal stdin stdout].
  now apply passes_never_end_unasked.
Qed.

End ChatLoopProperties.

(** * The further properties at work *)

Example one_pass_conversation :
  exists st enhanced_query passes m,
    at_turn Demo.loads (Demo.client (Some Demo.provider) Demo.scripted)
            (u "现在几点")
            (Demo.start [Demo.asks [Demo.time_call (u "call_1") (u "{}")];
                         Demo.says (u "八点。")])
            1
            (map to_function [Demo.weather_tool; Demo.time_tool]) m st /\
    messages st
    = UserMessage enhanced_query :: flat_map block passes
      ++ [AssistantDump m] /\
    length passes = 1 /\
    Forall answered passes.
Proof.
  eassert (at_turn Demo.loads
             (Demo.client (Some Demo.provider) Demo.scripted)
             (u "现在几点")
             (Demo.start [Demo.asks [Demo.time_call (u "call_1") (u "{}")];
                          Demo.says (u "八点。")])
             0 _ _ _) as Hat0.
  { apply at_first_answer. vm_compute. reflexivity. }
  eassert (at_turn Demo.loads _ _ _ 1 _ _ _) as Hat.
  { eapply at_next_answer;
      [exact Hat0 | reflexivity | vm_compute; reflexivity]. }
  destruct (conversation_grows_by_whole_blocks Hat)
    as (eq & passes & evs & Hlen & Hpasses & Hms & _).
  eexists _, eq, passes, _.
  split; [exact Hat | split; [exact Hms | split; assumption]].
Defined.

Example one_pass_invocations :
  exists (st : State Demo.World) evs,
    log st = evs /\
    Forall2 (invokes Demo.loads)
            (filter is_tool_invocation evs)
            [Demo.time_call (u "call_1") (u "{}")].
Proof.
  eassert (at_turn Demo.loads
             (Demo.client (Some Demo.provider) Demo.scripted)
             (u "现在几点")
             (Demo.start [Demo.asks [Demo.time_call (u "call_1") (u "{}")];
                          Demo.says (u "八点。")])
             0 _ _ _) as Hat0.
  { apply at_first_answer. vm_compute. reflexivity. }
  eassert (at_turn Demo.loads _ _ _ 1 _ _ _) as Hat.
  { eapply at_next_answer;
      [exact Hat0 | reflexivity | vm_compute; reflexivity]. }
  destruct (tools_are_invoked_as_asked Hat) as (evs & Hlog & Hinv).
  eexists _, evs. split; [exact Hlog | exact Hinv].
Defined.

Example unknown_tool_is_passed_on :
  for_each (run_tool_call Demo.loads
              (Demo.client (Some Demo.provider) Demo.scripted))
           [Scenes.news_call; Demo.time_call (u "call_1") (u "{}")]
           (Demo.start [])
  = for_each (run_tool_call Demo.loads
                (Demo.client (Some Demo.provider) Demo.scripted))
             [Demo.time_call (u "call_1") (u "{}")]
             (mkState []
                [CallTool (u "get_news") (JObject [])]
                [ToolMessage (u "Unknown tool: get_news") (u "call_0")]).
Proof.
  eapply reported_tool_error_is_passed_on
    with (session := Demo.provider) (done := []) (st1 := Demo.start [])
         (others := []) (is_error := true).
  - reflexivity.
  - reflexivity.
  - vm_compute. reflexivity.
  - vm_compute. reflexivity.
Defined.

Example empty_tool_result :
  exists st',
    process_query Demo.loads 1
      (Demo.client (Some Scenes.silent_provider) Demo.scripted)
      (u "现在几点")
      (Demo.start [Demo.asks [Demo.time_call (u "call_1") (u "{}")];
                   Demo.says (u "八点。")])
    = (Ret (Some (error_text IndexError)), st').
Proof.
  eexists.
  eapply unreadable_tool_result_ends_the_query
    with (session := Scenes.silent_provider) (n := 0) (done := [])
         (tool_call := Demo.time_call (u "call_1") (u "{}")) (rest := [])
         (content := []) (is_error := false).
  - reflexivity.
  - apply at_first_answer. vm_compute. reflexivity.
  - reflexivity.
  - reflexivity.
  - vm_compute. reflexivity.
  - vm_compute. reflexivity.
  - left. split; reflexivity.
  - lia.
Defined.

Example backend_lost_after_tools :
  exists st',
    process_query Demo.loads 1
      (Demo.client (Some Demo.provider) Demo.scripted)
      (u "现在几点")
      (Demo.start [Demo.asks [Demo.time_call (u "call_1") (u "{}")]])
    = (Ret (Some (error_text (mkException (u "Connection error.")))), st').
Proof.
  eexists.
  eapply failed_follow_up_request_ends_the_query
    with (session := Demo.provider) (n := 0).
  - reflexivity.
  - apply at_first_answer. vm_compute. reflexivity.
  - reflexivity.
  - vm_compute. reflexivity.
  - vm_compute. reflexivity.
  - left. reflexivity.
  - lia.
Defined.

Example backend_lost_at_once :
  exists st',
    process_query Demo.loads 1
      (Demo.client (Some Demo.provider) Demo.scripted)
      (u "现在几点") (Demo.start [])
    = (Ret (Some (error_text (mkException (u "Connection error.")))), st').
Proof.
  eexists.
  eapply failed_first_request_ends_the_query
    with (session := Demo.provider).
  - reflexivity.
  - vm_compute. reflexivity.
  - vm_compute. reflexivity.
  - vm_compute. reflexivity.
  - left. reflexivity.
Defined.

Example resource_without_contents :
  exists st',
    process_query Demo.loads 1
      (Demo.client (Some Scenes.silent_provider) Demo.scripted)
      (u "北京旅游") (Demo.start [Demo.says (u "好的")])
    = (Ret (Some (error_text IndexError)), st').
Proof.
  eexists.
  eapply unreadable_resource_ends_the_query
    with (session := Scenes.silent_provider) (contents := []).
  - reflexivity.
  - apply rule_decision. vm_compute. reflexivity.
  - reflexivity.
  - left. split; reflexivity.
Defined.

Example missing_document_in_the_prompt :
  fst (select_prompt_and_enhanced_query
         (Demo.client (Some Scenes.bare_provider) Demo.scripted)
         (u "北京旅游") (Demo.start []))
  = Ret (u "你是旅游博主，非常了解北京文化，按以下内容进行推荐" ++ NL ++ NL
         ++ (u "读取文件 "
             ++ (u "./resources/" ++ Demo.unquote_plain (u "北京")
                 ++ u "景点推荐.md")
             ++ u " 失败: "
             ++ str_of (mkException
                          (u "[Errno 2] No such file or directory: './resources/北京景点推荐.md'")))
         ++ NL ++ NL ++ u "用户问题:" ++ NL ++ NL ++ u "北京旅游").
Proof.
  eapply unread_document_reaches_the_prompt
    with (session := Scenes.bare_provider) (open_read := Scenes.no_files).
  - reflexivity.
  - apply rule_decision. vm_compute. reflexivity.
  - vm_compute. reflexivity.
  - vm_compute. reflexivity.
  - vm_compute. reflexivity.
  - vm_compute. reflexivity.
Defined.

Example chat_with_two_lines :
  exists st' written,
    chat_loop Demo.loads Scenes.strip Scenes.lower 4 1
      (Demo.client (Some Demo.provider) Demo.scripted)
      (mkChat (Demo.start [Demo.says (u "你好！")])
              (mkTerminal [Line (u "   "); Line (u " 你好 ");
                           Line (u "/Q "); Line (u "再见")] []))
    = (Ret tt, mkChat st' (mkTerminal [Line (u "再见")] written)) /\
    replies_written written = map reply_line [Some (u "你好！")].
Proof.
  eexists.
  eapply chat_loop_answers_until_stopped
    with (keys := [Line (u "   "); Line (u " 你好 ")]) (stop := Line (u "/Q ")).
  - repeat constructor.
  - vm_compute. reflexivity.
  - vm_compute. reflexivity.
  - simpl. lia.
Defined.

Example chat_at_end_of_input :
  fst (chat_loop Demo.loads Scenes.strip Scenes.lower 9 1
         (Demo.client (Some Demo.provider) Demo.scripted)
         (mkChat (Demo.start [Demo.says (u "你好！")])
                 (mkTerminal [Line (u "你好")] [])))
  = OutOfFuel.
Proof.
  apply chat_loop_only_ends_when_told. repeat constructor.
Defined.
